(** * Lazy module proxies of [transformer_engine.lazy_import]

    A verification model of [transformer_engine/lazy_import.py] and of the
    package initialiser [transformer_engine/__init__.py].

    The program is Python, and almost everything it does is a request to the
    interpreter: attribute lookup, [__import__], [sys.modules],
    [importlib.util].  The development therefore has two layers.

    - The _runtime layer_ is a small executable model of the interpreter
      services the program calls: an object store, [sys.modules], attribute
      lookup on module objects, the import system, [importlib.util]'s lazy
      loader, [importlib.reload], [repr] and [int].  Each definition names
      the CPython routine it follows.
    - The _program layer_ is the embedding of the source file, one definition
      per function or method, under the names the source gives them.

    Python keeps side effects made before an exception is raised, so
    computations are functions [world -> result A * world]: the store is
    returned in both outcomes. *)

From Stdlib Require Import ZArith String Ascii List Lia DecimalString DecimalPos.
From stdpp Require Import base option gmap strings list fin_maps.

Local Open Scope string_scope.
Local Open Scope Z_scope.

(** ** Text helpers *)

Module PyStr.

(** [s.split(".")]: never empty, [""] splits into one empty segment. *)
Fixpoint split_dot (s : string) : list string :=
match s with
| EmptyString => [ "" ]
| String c rest =>
if Ascii.eqb c "."%char then "" :: split_dot rest
else match split_dot rest with
   | seg :: segs => String c seg :: segs
   | [] => [ String c "" ]
   end
end.

(** ["." .join(segs)] *)
Fixpoint join_dot (segs : list string) : string :=
match segs with
| [] => ""
| [ seg ] => seg
| seg :: more => seg ++ "." ++ join_dot more
end.

(** [s.split(".")[-1]] *)
Definition last_segment (s : string) : string :=
List.last (split_dot s) "".

(** [s.rpartition(".")[0]]: everything before the last dot, [""] when
there is none. *)
Definition parent_name (s : string) : string :=
join_dot (removelast (split_dot s)).

(** The chain [s.rpartition(".")[0]], its own parent, and so on, nearest
first, as the import system walks it: ["a.b.c"] gives
[["a.b"; "a"]]. *)
Fixpoint prefixes_rev (acc : list string) (segs : list string)
: list string :=
match segs with
| [] => []
| [ _ ] => []
| seg :: more =>
let here := (acc ++ [ seg ])%list in
(prefixes_rev here more ++ [ join_dot here ])%list
end.

(** The import system stops climbing at an empty parent ([".a"] has
none), so the chain is cut there. *)
Fixpoint until_empty (names : list string) : list string :=
match names with
| [] => []
| n :: more => if decide (n = "") then [] else n :: until_empty more
end.

Definition ancestors (s : string) : list string :=
until_empty (prefixes_rev [] (split_dot s)).

Definition starts_with_dot (s : string) : bool :=
match s with
| String c _ => Ascii.eqb c "."%char
| EmptyString => false
end.

(** [str(n)] for an integer. *)
Definition str_of_Z (n : Z) : string :=
NilEmpty.string_of_int (Z.to_int n).

(** [repr(s)] for a string free of quotes, backslashes and control
characters (module names and file paths): the text between single
quotes. *)
Definition repr_of_str (s : string) : string := "'" ++ s ++ "'".

End PyStr.

(** ** [int(text)] on a string

    Characters are code points below 256.  CPython turns the two Latin-1
    white-space code points 0x85 and 0xA0 into a blank, then
    [PyLong_FromString] skips blanks (9-13 and 32) on both sides, reads an
    optional sign and a run of decimal digits in which single underscores may
    separate digits.  Anything else is [ValueError: invalid literal]. *)

Module PyInt.

Definition is_space (c : ascii) : bool :=
let n := N_of_ascii c in
((9 <=? n) && (n <=? 13) || (n =? 32) || (n =? 133) || (n =? 160))%N.

Definition digit_of (c : ascii) : option Z :=
let n := Z.of_N (N_of_ascii c) in
if (48 <=? n) && (n <=? 57) then Some (n - 48) else None.

Fixpoint lstrip (s : string) : string :=
match s with
| String c rest => if is_space c then lstrip rest else s
| EmptyString => EmptyString
end.

(** Digits after the first one; [after_us] records that the previous
character was an underscore, which must be followed by a digit.  The
literal ends at the end of the text or at trailing white space. *)
Fixpoint digits (acc : Z) (after_us : bool) (s : string) : option Z :=
match s with
| EmptyString => if after_us then None else Some acc
| String c rest =>
match digit_of c with
| Some d => digits (10 * acc + d) false rest
| None =>
  if after_us then None
  else if Ascii.eqb c "_"%char then digits acc true rest
  else if is_space c then
         match lstrip rest with
         | EmptyString => Some acc
         | _ => None
         end
  else None
end
end.

Definition magnitude (s : string) : option Z :=
match s with
| String c rest =>
match digit_of c with
| Some d => digits d false rest
| None => None
end
| EmptyString => None
end.

Definition int (text : string) : option Z :=
match lstrip text with
| String "+"%char rest => magnitude rest
| String "-"%char rest => Z.opp <$> magnitude rest
| s => magnitude s
end.

End PyInt.

(** ** Objects, values and exceptions *)

Definition loc := nat.

(** The value of the selector, after validation. *)
Inductive flavor := FlavorA | FlavorB | FlavorC.

(** Classes of the objects the program creates or meets.
    [LoadedLazyImport target] is the class that
    [_LazyImport_FlavorA.__getattribute__] builds on the fly: its
    [__getattribute__] and [__repr__] are the bound methods read from the
    imported module, and a bound method is determined by the object it is
    bound to. *)
Inductive pyclass :=
| ModuleType
| Dict
| LazyImport_A
| LoadedLazyImport (target : loc)
| LazyImport_B
| LazyModule.

(** A [ModuleSpec]: its loader is the source loader for [spec_name]. *)
Record modspec := ModSpec {
  spec_name : string;
  spec_origin : string;
  spec_is_package : bool
}.

Inductive value :=
| VNone
| VInt (n : Z)
| VStr (s : string)
| VRef (l : loc)            (* a module or proxy object *)
| VDict (l : loc)           (* the namespace dictionary of object [l] *)
| VClass (c : pyclass)
| VSpec (sp : modspec)
| VOpaque (tag : string).   (* a runtime object with no modelled behaviour *)

(** Exceptions carry what the handlers and the claims look at.
    [InvalidLiteral text] is the [ValueError] of [int(text)]. *)
Inductive exn :=
| ModuleNotFoundError (name : string)
| ImportError (name : string)
| AttributeError (owner : value) (attr : string)
| KeyError (key : value)
| TypeError (what : string)
| ValueError (msg : string)
| InvalidLiteral (text : string)
| RecursionError
| SystemError.

(** What a test double around the import system would count. *)
Inductive event :=
| ImportCall (name : string)    (* [__import__] or [importlib.import_module] was called *)
| ExecModule (name : string).   (* the body of the module was executed *)

#[global] Instance flavor_eq_dec : EqDecision flavor.
Proof. solve_decision. Defined.
#[global] Instance pyclass_eq_dec : EqDecision pyclass.
Proof. solve_decision. Defined.
#[global] Instance modspec_eq_dec : EqDecision modspec.
Proof. solve_decision. Defined.
#[global] Instance value_eq_dec : EqDecision value.
Proof. solve_decision. Defined.
#[global] Instance exn_eq_dec : EqDecision exn.
Proof. solve_decision. Defined.
#[global] Instance event_eq_dec : EqDecision event.
Proof. solve_decision. Defined.

Record obj := Obj {
  cls : pyclass;
  ns : gmap string value
}.

(** What the path finders can locate: the origin of the file, whether it is
    a package, and the bindings its body makes, in order. *)
Record source := Source {
  src_origin : string;
  src_is_package : bool;
  src_body : list (string * value)
}.

Record world := World {
  disk : gmap string source;
  heap : gmap loc obj;
  next : loc;
  sys_modules : gmap string loc;
  loader_state : gmap loc (gmap string value);
  log : list event
}.

(** ** Computations *)

Inductive result (A : Type) :=
| Ok (a : A)
| Raise (e : exn).
Arguments Ok {A} a.
Arguments Raise {A} e.

Definition M (A : Type) : Type := world -> result A * world.

Definition ret {A} (a : A) : M A := fun w => (Ok a, w).

Definition raise {A} (e : exn) : M A := fun w => (Raise e, w).

Definition bind {A B} (m : M A) (k : A -> M B) : M B :=
  fun w =>
    match m w with
    | (Ok a, w') => k a w'
    | (Raise e, w') => (Raise e, w')
    end.

Notation "x <- m ;; k" := (bind m (fun x => k))
  (at level 20, m at level 99, k at level 200, only parsing).
Notation "m ;; k" := (bind m (fun _ => k))
  (at level 100, k at level 200, right associativity, only parsing).

(** [try: m  except AttributeError: handler] *)
Definition except_AttributeError {A} (m : M A) (handler : M A) : M A :=
  fun w =>
    match m w with
    | (Raise (AttributeError _ _), w') => handler w'
    | r => r
    end.

(** [try: m  finally/except: cleanup; raise] *)
Definition on_error {A} (m : M A) (cleanup : M unit) : M A :=
  fun w =>
    match m w with
    | (Raise e, w') => (Raise e, snd (cleanup w'))
    | r => r
    end.

(** [str(v)] and [repr(v)] where the program formats a value into text;
    exact on text, integers and [None], a placeholder elsewhere. *)
Module PyVal.

Definition str (v : value) : string :=
match v with
| VStr s => s
| VInt n => PyStr.str_of_Z n
| VNone => "None"
| VOpaque tag => "<" ++ tag ++ ">"
| _ => "<object>"
end.

Definition repr (v : value) : string :=
match v with
| VStr s => PyStr.repr_of_str s
| _ => str v
end.

(** [bool(v)] *)
Definition truthy (v : value) : bool :=
match v with
| VNone => false
| VInt n => negb (n =? 0)
| VStr s => negb (String.eqb s "")
| _ => true
end.

End PyVal.

(** ** The object store *)

Module Store.

Definition set_heap (h : gmap loc obj) (w : world) : world :=
World (disk w) h (next w) (sys_modules w) (loader_state w) (log w).

Definition set_sys_modules (r : gmap string loc) (w : world) : world :=
World (disk w) (heap w) (next w) r (loader_state w) (log w).

Definition set_loader_state (s : gmap loc (gmap string value)) (w : world)
: world :=
World (disk w) (heap w) (next w) (sys_modules w) s (log w).

(** A new object of class [c] with namespace [d]. *)
Definition alloc (c : pyclass) (d : gmap string value) : M loc :=
fun w =>
(Ok (next w),
 World (disk w) (<[next w := Obj c d]> (heap w)) (S (next w))
   (sys_modules w) (loader_state w) (log w)).

Definition deref (l : loc) : M obj :=
fun w =>
match heap w !! l with
| Some o => (Ok o, w)
| None => (Raise SystemError, w)
end.

Definition update (l : loc) (f : obj -> obj) : M unit :=
o <- deref l ;;
fun w => (Ok tt, set_heap (<[l := f o]> (heap w)) w).

Definition emit (e : event) : M unit :=
fun w =>
(Ok tt,
 World (disk w) (heap w) (next w) (sys_modules w) (loader_state w)
   (log w ++ [ e ])%list).

Definition locate (name : string) : M (option source) :=
fun w => (Ok (disk w !! name), w).

End Store.

(** ** Attribute protocol of plain objects *)

(** [object.__getattribute__(o, x)]: the data descriptors of the type
    ([__class__], [__dict__]) first, then the instance namespace.  The
    methods every module type inherits are not values of the model. *)
Definition object_getattribute (o : loc) (x : string) : M value :=
  ob <- Store.deref o ;;
  if decide (x = "__class__") then ret (VClass (cls ob))
  else if decide (x = "__dict__") then ret (VDict o)
  else match ns ob !! x with
       | Some v => ret v
       | None => raise (AttributeError (VRef o) x)
       end.

(** [types.ModuleType.__getattribute__(m, x)]: the generic lookup; a module
    level [__getattr__] hook would need function values, which module bodies
    of the model cannot bind. *)
Definition module_getattribute (m : loc) (x : string) : M value :=
  object_getattribute m x.

(** [object.__setattr__(o, x, v)] for an ordinary attribute. *)
Definition object_setattr (o : loc) (x : string) (v : value) : M unit :=
  Store.update o (fun ob => Obj (cls ob) (<[x := v]> (ns ob))).

(** [object.__setattr__(o, "__class__", c)] *)
Definition object_setattr_class (o : loc) (c : pyclass) : M unit :=
  Store.update o (fun ob => Obj c (ns ob)).

(** [d[k] = v] on the dictionary [d] *)
Definition dict_setitem (d k v : value) : M unit :=
  match d, k with
  | VDict l, VStr key => object_setattr l key v
  | VDict _, _ => raise (TypeError "namespace keys are strings")
  | _, _ => raise (TypeError "object does not support item assignment")
  end.

(** [d.update(other)]: the bindings of [other] win. *)
Definition dict_update (d other : value) : M unit :=
  match d, other with
  | VDict l, VDict l' =>
      src <- Store.deref l' ;;
      Store.update l (fun ob => Obj (cls ob) (ns src ∪ ns ob))
  | _, _ => raise (TypeError "update() of a non-dictionary")
  end.

(** [types.ModuleType.__init__(self, name)], which fills the namespace the
    object already has ([module_init_dict]). *)
Definition module_init_dict (name : string) (d : gmap string value)
  : gmap string value :=
  <["__spec__" := VNone]>
    (<["__loader__" := VNone]>
       (<["__package__" := VNone]>
          (<["__doc__" := VNone]>
             (<["__name__" := VStr name]> d)))).

Definition ModuleType__init__ (self : loc) (name : string) : M unit :=
  Store.update self (fun ob => Obj (cls ob) (module_init_dict name (ns ob))).

(** ** [sys.modules] *)

Module sys.

(** [sys.modules.get(name)] *)
Definition modules_get (name : string) : M (option loc) :=
fun w => (Ok (sys_modules w !! name), w).

(** [sys.modules[name]] *)
Definition modules_getitem (name : value) : M loc :=
match name with
| VStr n =>
found <- modules_get n ;;
match found with
| Some m => ret m
| None => raise (KeyError name)
end
| _ => raise (KeyError name)
end.

(** [sys.modules[name] = m] *)
Definition modules_setitem (name : string) (m : loc) : M unit :=
fun w => (Ok tt, Store.set_sys_modules (<[name := m]> (sys_modules w)) w).

(** [del sys.modules[name]], ignoring a missing key *)
Definition modules_discard (name : string) : M unit :=
fun w => (Ok tt, Store.set_sys_modules (delete name (sys_modules w)) w).

End sys.

(** ** The import system ([importlib._bootstrap]) *)

Module bootstrap.

Definition spec_of (name : string) (src : source) : modspec :=
ModSpec name (src_origin src) (src_is_package src).

(** [_find_spec(name, path)]: what the finders answer. *)
Definition _find_spec (name : string) : M (option modspec) :=
src <- Store.locate name ;;
ret (spec_of name <$> src).

(** [spec.parent] *)
Definition spec_parent (sp : modspec) : string :=
if spec_is_package sp then spec_name sp
else PyStr.parent_name (spec_name sp).

(** [_init_module_attrs(spec, module)] on a new module, and with
[override=True] on an old one: every import attribute is set. *)
Definition init_module_attrs (sp : modspec) (d : gmap string value)
: gmap string value :=
let d := <["__name__" := VStr (spec_name sp)]> d in
let d := <["__loader__" := VOpaque "SourceFileLoader"]> d in
let d := <["__package__" := VStr (spec_parent sp)]> d in
let d := <["__spec__" := VSpec sp]> d in
let d := if spec_is_package sp
   then <["__path__" := VOpaque "search path"]> d else d in
let d := <["__file__" := VStr (spec_origin sp)]> d in
<["__cached__" := VOpaque "bytecode path"]> d.

(** [module_from_spec(spec)] *)
Definition module_from_spec (sp : modspec) : M loc :=
Store.alloc ModuleType
(init_module_attrs sp (module_init_dict (spec_name sp) ∅)).

(** The bindings a module body leaves in the namespace it runs in. *)
Definition run_body (body : list (string * value)) (d : gmap string value)
: gmap string value :=
foldl (fun acc kv => <[kv.1 := kv.2]> acc)
(<["__builtins__" := VOpaque "builtins"]> d) body.

(** [spec.loader.exec_module(module)] of the source loader: the file is
read again at every execution. *)
Definition exec_module (name : string) (module : loc) : M unit :=
src <- Store.locate name ;;
match src with
| None => raise (ImportError name)
| Some s =>
Store.emit (ExecModule name) ;;
Store.update module
(fun ob => Obj (cls ob) (run_body (src_body s) (ns ob)))
end.

(** [_load_unlocked(spec)] *)
Definition _load_unlocked (sp : modspec) : M loc :=
module <- module_from_spec sp ;;
sys.modules_setitem (spec_name sp) module ;;
on_error (exec_module (spec_name sp) module)
   (sys.modules_discard (spec_name sp)) ;;
sys.modules_getitem (VStr (spec_name sp)).

(** [importlib.util._LazyModule.__getattribute__(self, attr)], up to
its last line. *)
Definition _LazyModule_load (self : loc) : M unit :=
object_setattr_class self ModuleType ;;
spec <- module_getattribute self "__spec__" ;;
match spec with
| VSpec sp =>
let original_name := spec_name sp in
saved <- (fun w => (Ok (loader_state w !! self), w)) ;;
match saved with
| None => raise (TypeError "'NoneType' object is not subscriptable")
| Some attrs_then =>
  ob <- Store.deref self ;;
  let attrs_now := ns ob in
  let attrs_updated :=
    filter (fun kv => attrs_then !! kv.1 ≠ Some kv.2) attrs_now in
  exec_module original_name self ;;
  found <- sys.modules_get original_name ;;
  match found with
  | Some m' =>
      if decide (m' = self) then ret tt
      else raise (ValueError
                    ("module object for "
                     ++ PyStr.repr_of_str original_name
                     ++ " substituted in sys.modules during a lazy load"))
  | None => ret tt
  end ;;
  Store.update self
    (fun ob' => Obj (cls ob') (attrs_updated ∪ ns ob'))
end
| v => raise (AttributeError v "name")
end.

(** ... and its last line, [return getattr(self, attr)]. *)
Definition _LazyModule__getattribute__ (self : loc) (attr : string)
: M value :=
_LazyModule_load self ;;
module_getattribute self attr.

(** Reading [m.__getattribute__] or [m.__repr__] on a registered object
gives a method of [types.ModuleType] bound to some object; this is
that object.  On a lazy module the read itself loads the module. *)
Definition bound_method_owner (m : loc) : M loc :=
ob <- Store.deref m ;;
match cls ob with
| LazyModule => _LazyModule_load m ;; ret m
| LoadedLazyImport target => ret target
| LazyImport_A => raise RecursionError
| LazyImport_B | ModuleType | Dict => ret m
end.

(** [getattr(m, x)] on an object taken from [sys.modules].  The import
system and [_LazyImport_FlavorC] register plain and lazy modules, and
a resolved class-swapping proxy forwards without further dispatch.
A proxy that is still unresolved and registered under the name it
stands for would re-enter its own lookup until Python raises
[RecursionError]; the model gives that answer for every unresolved
proxy found in the registry. *)
Definition getattr_registered (m : loc) (x : string) : M value :=
ob <- Store.deref m ;;
match cls ob with
| LazyModule => _LazyModule__getattribute__ m x
| LoadedLazyImport target => module_getattribute target x
| LazyImport_A | LazyImport_B => raise RecursionError
| ModuleType | Dict => module_getattribute m x
end.

(** [getattr(module, "__spec__", None)], read by [_find_and_load] and by
[import_ensure_initialized] on a registered module. *)
Definition ensure_initialized (m : loc) : M unit :=
except_AttributeError (getattr_registered m "__spec__" ;; ret tt) (ret tt).

(** The part of [_find_and_load_unlocked] after the parent is in place. *)
Definition find_and_load_leaf (name : string) : M loc :=
spec <- _find_spec name ;;
match spec with
| None => raise (ModuleNotFoundError name)
| Some sp => _load_unlocked sp
end.

(** [_find_and_load(name, import_)], with [parents] the chain of
[rpartition] parents of [name]. *)
Fixpoint _find_and_load (name : string) (parents : list string) : M loc :=
cached <- sys.modules_get name ;;
match cached with
| Some module => ensure_initialized module ;; ret module
| None =>
match parents with
| [] => find_and_load_leaf name
| parent :: grandparents =>
  known <- sys.modules_get parent ;;
  match known with
  | Some _ => ret tt
  | None => _find_and_load parent grandparents ;; ret tt
  end ;;
  again <- sys.modules_get name ;;
  match again with
  | Some module => ret module
  | None =>
      parent_module <- sys.modules_getitem (VStr parent) ;;
      except_AttributeError
        (getattr_registered parent_module "__path__")
        (raise (ModuleNotFoundError name)) ;;
      module <- find_and_load_leaf name ;;
      parent_module <- sys.modules_getitem (VStr parent) ;;
      object_setattr parent_module (PyStr.last_segment name)
                     (VRef module) ;;
      ret module
  end
end
end.

(** [_gcd_import(name)] at level 0 *)
Definition _gcd_import (name : string) : M loc :=
if decide (name = "") then raise (ValueError "Empty module name")
else _find_and_load name (PyStr.ancestors name).

End bootstrap.

(** ** Built-ins and [importlib] entry points *)

(** [__import__(name)]: imports [name], then hands back the top-level
    package, which it fetches through the import system once more. *)
Definition __import__ (name : value) : M loc :=
  match name with
  | VStr n =>
      Store.emit (ImportCall n) ;;
      module <- bootstrap._gcd_import n ;;
      match PyStr.split_dot n with
      | front :: _ :: _ => bootstrap._find_and_load front []
      | _ => ret module
      end
  | _ => raise (TypeError "__import__() argument 1 must be str")
  end.

Module importlib.

(** [importlib.import_module(name)] *)
Definition import_module (name : value) : M loc :=
match name with
| VStr n =>
if PyStr.starts_with_dot n
then raise (TypeError "the 'package' argument is required to perform a relative import")
else Store.emit (ImportCall n) ;; bootstrap._gcd_import n
| v => raise (AttributeError v "startswith")
end.

(** [importlib.util.find_spec(name)]; the result is [None], a spec, or
whatever a registered module holds as [__spec__]. *)
Definition find_spec (name : string) : M value :=
if PyStr.starts_with_dot name then raise (ImportError name)
else
cached <- sys.modules_get name ;;
match cached with
| None =>
let parent_name := PyStr.parent_name name in
(if decide (parent_name = "") then ret tt
 else
   (* [__import__(parent_name, fromlist=['__path__'])] *)
   Store.emit (ImportCall parent_name) ;;
   parent <- bootstrap._gcd_import parent_name ;;
   except_AttributeError
     (bootstrap.getattr_registered parent "__path__" ;; ret tt)
     (raise (ModuleNotFoundError name))) ;;
spec <- bootstrap._find_spec name ;;
ret (from_option VSpec VNone spec)
| Some module =>
spec <- except_AttributeError
          (bootstrap.getattr_registered module "__spec__")
          (raise (ValueError (name ++ ".__spec__ is not set"))) ;;
match spec with
| VNone => raise (ValueError (name ++ ".__spec__ is None"))
| _ => ret spec
end
end.

(** [LazyLoader(loader).exec_module(module)]: remember the namespace and
switch the class; the eager loader is put back on the spec and on the
module. *)
Definition LazyLoader_exec_module (module : loc) : M unit :=
ob <- Store.deref module ;;
(fun w =>
 (Ok tt,
Store.set_loader_state (<[module := ns ob]> (loader_state w)) w)) ;;
object_setattr_class module LazyModule.

End importlib.

(** * The program: [transformer_engine/lazy_import.py] *)

Module _LazyImport_FlavorA.

(** [_LazyImport_FlavorA(name)]: the class defines no [__init__], so the
call allocates the instance and runs [types.ModuleType.__init__]. *)
Definition create (name : string) : M loc :=
self <- Store.alloc LazyImport_A ∅ ;;
ModuleType__init__ self name ;;
ret self.

Definition __getattribute__ (self : loc) (x : string) : M value :=
name <- object_getattribute self "__name__" ;;
__import__ name ;;
module <- sys.modules_getitem name ;;
(* class LoadedLazyImport: the two bound methods are read here *)
target <- bootstrap.bound_method_owner module ;;
object_setattr_class self (LoadedLazyImport target) ;;
(* return module.__getattribute__(x) *)
owner <- bootstrap.bound_method_owner module ;;
module_getattribute owner x.

Definition __repr__ (self : loc) : M string :=
name <- object_getattribute self "__name__" ;;
ret ("<module '" ++ PyVal.str name ++ "' will be lazily loaded>").

End _LazyImport_FlavorA.

Module _LazyImport_FlavorB.

(** [globals] is the namespace of the [lazy_import] module, which is what
[globals()] denotes inside the class. *)
Definition __init__ (globals : loc) (self : loc) (name : string)
(parent_module_globals : option loc) : M unit :=
let parent_module_globals :=
match parent_module_globals with
| None => globals
| Some given => given
end in
let local_name := PyStr.last_segment name in
object_setattr self "_local_name" (VStr local_name) ;;
object_setattr self "_parent_module_globals"
         (VDict parent_module_globals) ;;
ModuleType__init__ self name.

Definition create (globals : loc) (name : string)
(parent_module_globals : option loc) : M loc :=
self <- Store.alloc LazyImport_B ∅ ;;
__init__ globals self name parent_module_globals ;;
ret self.

(** [self.x] inside the class.  A name missing from the instance would go
to [__getattr__], hence to [_load], which reads the same name again:
Python ends that with [RecursionError]. *)
Definition self_attr (self : loc) (x : string) : M value :=
except_AttributeError (module_getattribute self x) (raise RecursionError).

Definition _load (self : loc) : M loc :=
name <- self_attr self "__name__" ;;
module <- importlib.import_module name ;;
globals <- self_attr self "_parent_module_globals" ;;
local_name <- self_attr self "_local_name" ;;
dict_setitem globals local_name (VRef module) ;;
self_dict <- self_attr self "__dict__" ;;
module_dict <- bootstrap.getattr_registered module "__dict__" ;;
dict_update self_dict module_dict ;;
ret module.

Definition __getattr__ (self : loc) (item : string) : M value :=
module <- _load self ;;
bootstrap.getattr_registered module item.

(** [dir(module)] lists the names bound in the module. *)
Definition __dir__ (self : loc) : M (gset string) :=
module <- _load self ;;
d <- bootstrap.getattr_registered module "__dict__" ;;
match d with
| VDict l => ob <- Store.deref l ;; ret (dom (ns ob))
| _ => raise (TypeError "__dict__ is not a dictionary")
end.

End _LazyImport_FlavorB.

Definition _LazyImport_FlavorC (name : string) : M loc :=
  spec <- importlib.find_spec name ;;
  match spec with
  | VSpec sp =>
      (* loader = LazyLoader(spec.loader); spec.loader = loader *)
      module <- bootstrap.module_from_spec sp ;;
      sys.modules_setitem name module ;;
      importlib.LazyLoader_exec_module module ;;
      ret module
  | v => raise (AttributeError v "loader")
  end.

(** [os.environ] *)
Abbreviation environ := (gmap string string).

(** [_LazyImportFlavor = int(os.environ.get("TE_LAZY_IMPORT_FLAVOR", "1"))] *)
Definition _LazyImportFlavor (env : environ) : result Z :=
  let text := default "1" (env !! "TE_LAZY_IMPORT_FLAVOR") in
  match PyInt.int text with
  | Some n => Ok n
  | None => Raise (InvalidLiteral text)
  end.

Definition unknown_flavor_message (n : Z) : string :=
  "Unknown `TE_LAZY_IMPORT_FLAVOR` value received: " ++ PyStr.str_of_Z n.

(** The [if]/[elif] chain that binds [LazyImport]. *)
Definition LazyImport_binding (env : environ) : result flavor :=
  match _LazyImportFlavor env with
  | Raise e => Raise e
  | Ok n =>
      if n =? 1 then Ok FlavorA
      else if n =? 2 then Ok FlavorB
      else if n =? 3 then Ok FlavorC
      else Raise (ValueError (unknown_flavor_message n))
  end.

(** [LazyImport(name)] once the binding is made; [globals] is the namespace
    of the [lazy_import] module. *)
Definition LazyImport (f : flavor) (globals : loc) (name : string) : M loc :=
  match f with
  | FlavorA => _LazyImport_FlavorA.create name
  | FlavorB => _LazyImport_FlavorB.create globals name None
  | FlavorC => _LazyImport_FlavorC name
  end.

(** ** Dispatch on the class of the receiver *)

(** [getattr(o, x)], that is [o.x].  A class-swapping proxy answers through
    its own [__getattribute__]; the second variant is asked only after the
    ordinary lookup has failed ([__getattr__]). *)
Definition getattr (o : loc) (x : string) : M value :=
  ob <- Store.deref o ;;
  match cls ob with
  | LazyImport_A => _LazyImport_FlavorA.__getattribute__ o x
  | LazyImport_B =>
      except_AttributeError (module_getattribute o x)
                            (_LazyImport_FlavorB.__getattr__ o x)
  | LoadedLazyImport _ | LazyModule | ModuleType | Dict =>
      bootstrap.getattr_registered o x
  end.

(** [_module_repr_from_spec(spec)] for a spec found on the path. *)
Definition module_repr_from_spec (sp : modspec) : string :=
  "<module " ++ PyStr.repr_of_str (spec_name sp)
  ++ " from " ++ PyStr.repr_of_str (spec_origin sp) ++ ">".

(** [types.ModuleType.__repr__(module)], that is
    [importlib._bootstrap._module_repr]. *)
Definition module_repr (module : loc) : M string :=
  loader <- except_AttributeError (getattr module "__loader__") (ret VNone) ;;
  spec <- except_AttributeError (getattr module "__spec__") (ret VNone) ;;
  if PyVal.truthy spec then
    match spec with
    | VSpec sp => ret (module_repr_from_spec sp)
    | v => raise (AttributeError v "name")
    end
  else
    name <- except_AttributeError (getattr module "__name__")
                                  (ret (VStr "?")) ;;
    except_AttributeError
      (filename <- getattr module "__file__" ;;
       ret ("<module " ++ PyVal.repr name
            ++ " from " ++ PyVal.repr filename ++ ">"))
      (match loader with
       | VNone => ret ("<module " ++ PyVal.repr name ++ ">")
       | _ => ret ("<module " ++ PyVal.repr name
                   ++ " (" ++ PyVal.repr loader ++ ")>")
       end).

(** [repr(o)] *)
Definition repr (o : loc) : M string :=
  ob <- Store.deref o ;;
  match cls ob with
  | LazyImport_A => _LazyImport_FlavorA.__repr__ o
  | LoadedLazyImport target => module_repr target
  | LazyImport_B | LazyModule | ModuleType | Dict => module_repr o
  end.

(** [importlib.reload(module)], first statement: the name to reload,
    taken from the spec or, failing that, from [__name__]. *)
Definition reload_name (module : loc) : M value :=
  except_AttributeError
    (spec <- getattr module "__spec__" ;;
     match spec with
     | VSpec sp => ret (VStr (spec_name sp))
     | v => raise (AttributeError v "name")
     end)
    (except_AttributeError
       (getattr module "__name__")
       (raise (TypeError "reload() argument must be a module"))).

(** [importlib.reload(module)], the statements after the name is known:
    the registry must hold this very object under the name; then the spec
    is found again and the module body re-executed in place. *)
Definition reload_as (module : loc) (name : value) : M loc :=
  match name with
  | VStr n =>
      registered <- sys.modules_get n ;;
      if decide (registered = Some module) then
        let parent_name := PyStr.parent_name n in
        (if decide (parent_name = "") then ret tt
         else
           known <- sys.modules_get parent_name ;;
           match known with
           | None => raise (ImportError parent_name)
           | Some parent => getattr parent "__path__" ;; ret tt
           end) ;;
        spec <- bootstrap._find_spec n ;;
        object_setattr module "__spec__" (from_option VSpec VNone spec) ;;
        match spec with
        | None => raise (ModuleNotFoundError n)
        | Some sp =>
            (* _bootstrap._exec(spec, module) *)
            Store.update module
              (fun ob => Obj (cls ob) (bootstrap.init_module_attrs sp (ns ob))) ;;
            bootstrap.exec_module n module ;;
            sys.modules_getitem name
        end
      else raise (ImportError n)
  | v => raise (ImportError (PyVal.str v))
  end.

Definition reload (module : loc) : M loc :=
  name <- reload_name module ;;
  reload_as module name.

(** * The program: [transformer_engine/__init__.py] *)

Module transformer_engine.


Definition package_spec : modspec :=
ModSpec "transformer_engine" "transformer_engine/__init__.py" true.

Definition lazy_import_spec : modspec :=
ModSpec "transformer_engine.lazy_import"
  "transformer_engine/lazy_import.py" false.

(** What [LazyImport] is bound to. *)
Definition callable_of (f : flavor) : value :=
match f with
| FlavorA => VClass LazyImport_A
| FlavorB => VClass LazyImport_B
| FlavorC => VOpaque "function _LazyImport_FlavorC"
end.

(** The module-level statements of [lazy_import.py], run in the namespace
of [module]. *)
Definition lazy_import_body (env : environ) (module : loc) : M flavor :=
match _LazyImportFlavor env with
| Raise e => raise e
| Ok n =>
object_setattr module "_LazyImportFlavor" (VInt n) ;;
match LazyImport_binding env with
| Raise e => raise e
| Ok f =>
  object_setattr module "LazyImport" (callable_of f) ;;
  ret f
end
end.

(** The import statement's call of [__import__] with a [fromlist]: the
named module itself comes back. *)
Definition import_name (name : string) : M loc :=
Store.emit (ImportCall name) ;;
bootstrap._gcd_import name.

(** [_handle_fromlist]: a name the package does not have yet is tried as
a submodule, and a submodule that cannot be found is passed over. *)
Definition handle_fromlist (package : loc) (package_name name : string)
: M unit :=
present <- except_AttributeError
       (bootstrap.getattr_registered package name ;; ret true)
       (ret false) ;;
if present : bool then ret tt
else
let from_name := package_name ++ "." ++ name in
fun w =>
match bootstrap._gcd_import from_name w with
| (Ok _, w') => (Ok tt, w')
| (Raise (ModuleNotFoundError missing), w') =>
  if decide (missing = from_name) then (Ok tt, w')
  else (Raise (ModuleNotFoundError missing), w')
| (Raise e, w') => (Raise e, w')
end.

(** [IMPORT_FROM]: the attribute, or [ImportError: cannot import name]. *)
Definition import_from (module : loc) (name : string) : M value :=
except_AttributeError (bootstrap.getattr_registered module name)
                (raise (ImportError name)).

(** First import of [transformer_engine.lazy_import]: the module is
created and registered, its body runs, and a failing body takes the
module out of the registry again ([_load_unlocked]). *)
Definition import_lazy_import (env : environ) : M (loc * flavor) :=
Store.emit (ImportCall (spec_name lazy_import_spec)) ;;
parent <- sys.modules_getitem (VStr "transformer_engine") ;;
module <- bootstrap.module_from_spec lazy_import_spec ;;
sys.modules_setitem (spec_name lazy_import_spec) module ;;
f <- on_error (lazy_import_body env module)
        (sys.modules_discard (spec_name lazy_import_spec)) ;;
object_setattr parent "lazy_import" (VRef module) ;;
ret (module, f).

(** The three proxies of the package. *)
Definition bind_proxies (f : flavor) (globals package : loc) : M unit :=
pytorch <- LazyImport f globals "transformer_engine.pytorch" ;;
object_setattr package "pytorch" (VRef pytorch) ;;
jax <- LazyImport f globals "transformer_engine.jax" ;;
object_setattr package "jax" (VRef jax) ;;
paddle <- LazyImport f globals "transformer_engine.paddle" ;;
object_setattr package "paddle" (VRef paddle).

(** The statements before the import of [lazy_import]. *)
Definition eager_imports (package : loc) : M unit :=
(* from transformer_engine import common *)
pkg <- import_name "transformer_engine" ;;
handle_fromlist pkg "transformer_engine" "common" ;;
common <- import_from pkg "common" ;;
object_setattr package "common" common ;;
(* from transformer_engine._version import __version__ *)
version_module <- import_name "transformer_engine._version" ;;
version <- import_from version_module "__version__" ;;
object_setattr package "__version__" version.

(** The body of [__init__.py], run in the namespace of [package]. *)
Definition __init__ (env : environ) (package : loc) : M unit :=
eager_imports package ;;
(* from transformer_engine.lazy_import import LazyImport *)
imported <- import_lazy_import env ;;
object_setattr package "LazyImport" (callable_of imported.2) ;;
bind_proxies imported.2 imported.1 package.

(** [import transformer_engine] in a process that has not imported it. *)
Definition import_package (env : environ) : M loc :=
Store.emit (ImportCall "transformer_engine") ;;
package <- bootstrap.module_from_spec package_spec ;;
sys.modules_setitem "transformer_engine" package ;;
on_error (__init__ env package)
   (sys.modules_discard "transformer_engine") ;;
ret package.

End transformer_engine.

(** * Reasoning about runs

    The elementary operations unfold under [cbn] once they are applied to a
    store; the import system, the proxies and the package code stay folded
    and are used through their lemmas. *)

Arguments bind {A B} m k w /.
Arguments ret {A} a w /.
Arguments raise {A} e w /.
Arguments except_AttributeError {A} m handler w /.
Arguments on_error {A} m cleanup w /.
Arguments Store.alloc c d w /.
Arguments Store.deref l w /.
Arguments Store.update l f w /.
Arguments Store.emit e w /.
Arguments Store.locate name w /.
Arguments Store.set_heap h w /.
Arguments Store.set_sys_modules r w /.
Arguments Store.set_loader_state s w /.
Arguments sys.modules_get name w /.
Arguments sys.modules_getitem name w /.
Arguments sys.modules_setitem name m w /.
Arguments sys.modules_discard name w /.
Arguments object_getattribute o x w /.
Arguments module_getattribute m x w /.
Arguments object_setattr o x v w /.
Arguments object_setattr_class o c w /.
Arguments ModuleType__init__ self name w /.
Arguments bootstrap.module_from_spec sp w /.
Arguments bootstrap._find_spec name w /.

Arguments bootstrap.exec_module : simpl never.
Arguments bootstrap._load_unlocked : simpl never.
Arguments bootstrap._LazyModule_load : simpl never.
Arguments bootstrap._LazyModule__getattribute__ : simpl never.
Arguments bootstrap.bound_method_owner : simpl never.
Arguments bootstrap.getattr_registered : simpl never.
Arguments bootstrap.ensure_initialized : simpl never.
Arguments bootstrap.find_and_load_leaf : simpl never.
Arguments bootstrap._find_and_load : simpl never.
Arguments bootstrap._gcd_import : simpl never.
Arguments __import__ : simpl never.
Arguments importlib.import_module : simpl never.
Arguments importlib.find_spec : simpl never.
Arguments importlib.LazyLoader_exec_module : simpl never.
Arguments _LazyImport_FlavorA.create : simpl never.
Arguments _LazyImport_FlavorA.__getattribute__ : simpl never.
Arguments _LazyImport_FlavorA.__repr__ : simpl never.
Arguments _LazyImport_FlavorB.__init__ : simpl never.
Arguments _LazyImport_FlavorB.create : simpl never.
Arguments _LazyImport_FlavorB.self_attr : simpl never.
Arguments _LazyImport_FlavorB._load : simpl never.
Arguments _LazyImport_FlavorB.__getattr__ : simpl never.
Arguments _LazyImport_FlavorB.__dir__ : simpl never.
Arguments _LazyImport_FlavorC : simpl never.
Arguments LazyImport : simpl never.
Arguments getattr : simpl never.
Arguments module_repr : simpl never.
Arguments repr : simpl never.
Arguments reload_name : simpl never.
Arguments reload_as : simpl never.
Arguments reload : simpl never.
Arguments dict_setitem : simpl never.
Arguments dict_update : simpl never.
Arguments transformer_engine.lazy_import_body : simpl never.
Arguments transformer_engine.import_name : simpl never.
Arguments transformer_engine.handle_fromlist : simpl never.
Arguments transformer_engine.import_from : simpl never.
Arguments transformer_engine.import_lazy_import : simpl never.
Arguments transformer_engine.bind_proxies : simpl never.
Arguments transformer_engine.eager_imports : simpl never.
Arguments transformer_engine.__init__ : simpl never.
Arguments transformer_engine.import_package : simpl never.

(** Resolve the store lookups a run is waiting on. *)
Ltac heap_steps :=
  repeat (first [ rewrite lookup_insert_eq
                | rewrite lookup_insert_ne by (lia || congruence || done) ];
          cbn).

(** Read a concrete key out of a chain of insertions. *)
Ltac map_lookup :=
  repeat first [ rewrite lookup_insert_eq
               | rewrite lookup_insert_ne by (discriminate || congruence || lia) ].


(** * Properties *)

(** ** The selector *)







(** The selector text ["99"] in an interpreter that has the two eagerly
    imported modules on its path. *)
Module Example99.

Definition files : gmap string source :=
<["transformer_engine.common" :=
Source "transformer_engine/common/__init__.py" true []]>
(<["transformer_engine._version" :=
 Source "transformer_engine/_version.py" false
        [ ("__version__", VStr "1.7.0") ]]> ∅).

Definition env : environ := {[ "TE_LAZY_IMPORT_FLAVOR" := "99" ]}.

Definition start : world := World files ∅ 0%nat ∅ ∅ [].

End Example99.


(** ** The default selector *)




(** An interpreter with no selector in its environment. *)
Module ExampleDefault.

Definition env : environ := ∅.

(** The store when the body of [__init__] starts: the package object is
created and registered. *)
Definition start : world :=
(bind (bootstrap.module_from_spec transformer_engine.package_spec)
(sys.modules_setitem "transformer_engine")
(World Example99.files ∅ 0%nat ∅ ∅ [])).2.

End ExampleDefault.


(** ** The import system leaves unregistered objects alone

    [p] is an object that [sys.modules] does not hold, a proxy in what
    follows.  In a store whose registry holds ordinary modules only, the
    import system neither reads nor writes [p]. *)

Section Frame.

Variable p : loc.

(** [m] is an ordinary module object, other than [p]. *)
Definition module_at (w : world) (m : loc) : Prop :=
m ≠ p ∧ ∃ ob, heap w !! m = Some ob ∧ cls ob = ModuleType.

Record inv (w : world) : Prop := Inv {
inv_next : (p < next w)%nat;
inv_registry : ∀ n m, sys_modules w !! n = Some m → module_at w m
}.

Definition is_exec (e : event) : Prop :=
match e with
| ExecModule _ => True
| ImportCall _ => False
end.

(** What a run of the import system may change. *)
Record ext (w w' : world) : Prop := Ext {
ext_heap : heap w' !! p = heap w !! p;
ext_disk : disk w' = disk w;
ext_next : (next w ≤ next w')%nat;
ext_log : ∃ evs, log w' = (log w ++ evs)%list ∧ Forall is_exec evs;
ext_modules : ∀ m, module_at w m → module_at w' m;
ext_alive : ∀ l, is_Some (heap w !! l) → is_Some (heap w' !! l)
}.

Lemma ext_refl w : ext w w.
Proof.
split; try done. exists []. split; [by rewrite app_nil_r | constructor].
Qed.

Lemma ext_trans w1 w2 w3 : ext w1 w2 → ext w2 w3 → ext w1 w3.
Proof.
intros [H1 H2 H3 (e1 & H4 & F1) H5 H6] [G1 G2 G3 (e2 & G4 & F2) G5 G6].
split.
- congruence.
- congruence.
- lia.
- exists (e1 ++ e2)%list. split.
+ rewrite G4, H4. by rewrite app_assoc.
+ by apply Forall_app.
- auto.
- auto.
Qed.

(** Writing an object other than [p] that stays a module if it was one. *)
Lemma ext_write w l ob' :
l ≠ p →
(∀ ob, heap w !! l = Some ob → cls ob = ModuleType → cls ob' = ModuleType) →
ext w (Store.set_heap (<[l := ob']> (heap w)) w).
Proof.
intros Hl Hcls. split; cbn.
- by rewrite lookup_insert_ne.
- done.
- done.
- exists []. split; [by rewrite app_nil_r | constructor].
- intros m [Hm (ob & Hob & Hc)]. split; [done|]. cbn.
destruct (decide (l = m)) as [->|Hne].
+ exists ob'. rewrite lookup_insert_eq. split; [done|]. eauto.
+ exists ob. by rewrite lookup_insert_ne.
- intros l0 Hl0. destruct (decide (l = l0)) as [->|Hne].
+ rewrite lookup_insert_eq. eauto.
+ by rewrite lookup_insert_ne.
Qed.

Lemma inv_ext_same_registry w w' :
inv w → ext w w' → sys_modules w' = sys_modules w → inv w'.
Proof.
intros [Hn Hr] [_ _ Hnext _ Hmod _] Hreg. split; [lia|].
intros n m. rewrite Hreg. intros H. apply Hmod. eauto.
Qed.

Lemma inv_register w n m :
inv w → module_at w m →
inv (Store.set_sys_modules (<[n := m]> (sys_modules w)) w).
Proof.
intros [Hn Hr] Hm. split; [done|]. cbn. intros n' m'.
destruct (decide (n = n')) as [->|Hne].
- rewrite lookup_insert_eq. by intros [= <-].
- rewrite lookup_insert_ne by done. apply Hr.
Qed.

Lemma inv_discard w n :
inv w → inv (Store.set_sys_modules (delete n (sys_modules w)) w).
Proof.
intros [Hn Hr]. split; [done|]. cbn. intros n' m'.
destruct (decide (n = n')) as [->|Hne].
- by rewrite lookup_delete_eq.
- rewrite lookup_delete_ne by done. apply Hr.
Qed.

(** Reading an attribute of an ordinary module changes nothing. *)
Lemma module_getattribute_pure m x w :
(module_getattribute m x w).2 = w.
Proof.
cbn. destruct (heap w !! m); [|done]. cbn.
repeat case_decide; cbn; try done. destruct (ns o !! x); cbn; done.
Qed.

Lemma getattr_registered_module m x w ob :
heap w !! m = Some ob → cls ob = ModuleType →
bootstrap.getattr_registered m x w = module_getattribute m x w.
Proof.
intros Hob Hc. unfold bootstrap.getattr_registered. cbn.
rewrite Hob. cbn. rewrite Hc. cbn. rewrite Hob. cbn. by rewrite Hc.
Qed.

Lemma module_getattribute_outcome m x w ob :
heap w !! m = Some ob →
(∃ v, (module_getattribute m x w).1 = Ok v)
∨ (module_getattribute m x w).1 = Raise (AttributeError (VRef m) x).
Proof.
intros Hob. cbn. rewrite Hob. cbn.
repeat case_decide; cbn; eauto. destruct (ns ob !! x); cbn; eauto.
Qed.

Lemma ensure_initialized_module m w :
module_at w m → bootstrap.ensure_initialized m w = (Ok tt, w).
Proof.
intros [_ (ob & Hob & Hc)]. unfold bootstrap.ensure_initialized. cbn.
rewrite (getattr_registered_module m _ w ob Hob Hc).
pose proof (module_getattribute_pure m "__spec__" w) as Hpure.
destruct (module_getattribute_outcome m "__spec__" w ob Hob) as [[v Hv]|He];
destruct (module_getattribute m "__spec__" w) as [r w0];
cbn in *; subst; done.
Qed.


Lemma ext_alloc_module w d :
(p < next w)%nat →
ext w (Store.alloc ModuleType d w).2
∧ module_at (Store.alloc ModuleType d w).2 (next w).
Proof.
intros Hp. cbn. split; [split; cbn|].
- rewrite lookup_insert_ne by lia. done.
- done.
- lia.
- exists []. split; [by rewrite app_nil_r | constructor].
- intros m [Hm (ob & Hob & Hc)]. split; [done|]. cbn.
destruct (decide (next w = m)) as [<-|Hne].
+ rewrite lookup_insert_eq. eauto.
+ rewrite lookup_insert_ne by done. eauto.
- intros l Hl. destruct (decide (next w = l)) as [<-|Hne].
+ rewrite lookup_insert_eq. eauto.
+ by rewrite lookup_insert_ne.
- split; [lia|]. cbn. rewrite lookup_insert_eq. eauto.
Qed.

Lemma ext_emit_exec w name :
ext w (Store.emit (ExecModule name) w).2.
Proof.
split; cbn; try done. exists [ExecModule name]. split; [done|].
repeat constructor.
Qed.

(** Registering, or discarding, a name. *)
Lemma ext_set_registry w r : ext w (Store.set_sys_modules r w).
Proof.
split; cbn; try done. exists []. split; [by rewrite app_nil_r | constructor].
Qed.

Lemma inv_emit w e : inv w → inv (Store.emit e w).2.
Proof. intros [Hn Hr]. split; cbn; done. Qed.

Lemma exec_module_frame name m w :
module_at w m → inv w →
inv (bootstrap.exec_module name m w).2
∧ ext w (bootstrap.exec_module name m w).2
∧ sys_modules (bootstrap.exec_module name m w).2 = sys_modules w.
Proof.
intros [Hm (ob & Hob & Hc)] Hinv. unfold bootstrap.exec_module. cbn.
destruct (disk w !! name) as [src|]; cbn.
- rewrite Hob. cbn.
set (w1 := (Store.emit (ExecModule name) w).2).
assert (ext w w1) as E1 by apply ext_emit_exec.
assert (inv w1) as I1 by (by apply inv_emit).
assert (ext w1 (Store.set_heap
              (<[m := Obj (cls ob)
                          (bootstrap.run_body (src_body src) (ns ob))]>
                 (heap w1)) w1)) as E2.
{ apply ext_write; [done|]. intros ob0. cbn. rewrite Hob.
by intros [= <-]. }
split; [|split; [|done]].
+ eapply (inv_ext_same_registry w1); [done|exact E2|done].
+ eapply ext_trans; [exact E1 | exact E2].
- split; [done|]. split; [apply ext_refl | done].
Qed.

Lemma load_unlocked_frame sp w :
inv w →
let rw := bootstrap._load_unlocked sp w in
inv rw.2 ∧ ext w rw.2
∧ (∀ n, n ≠ spec_name sp → sys_modules rw.2 !! n = sys_modules w !! n)
∧ (∀ m, rw.1 = Ok m → sys_modules rw.2 !! spec_name sp = Some m).
Proof.
intros Hinv. unfold bootstrap._load_unlocked.
pose (d := bootstrap.init_module_attrs sp (module_init_dict (spec_name sp) ∅)).
destruct (ext_alloc_module w d (inv_next _ Hinv)) as [E1 M1].
cbn -[bootstrap.exec_module].
match goal with
| |- context [bootstrap.exec_module _ _ ?w0] => set (w2 := w0)
end.
assert (inv w2 ∧ ext w w2 ∧ module_at w2 (next w)) as (I2 & E2 & M2).
{ cbn in E1, M1. split; [|split].
- apply (inv_register (Store.alloc ModuleType d w).2
                  (spec_name sp) (next w)); [|exact M1].
eapply inv_ext_same_registry; [exact Hinv | exact E1 | done].
- eapply ext_trans; [exact E1 |].
exact (ext_set_registry (Store.alloc ModuleType d w).2
       (<[spec_name sp := next w]> (sys_modules w))).
- exact M1. }
destruct (exec_module_frame (spec_name sp) (next w) w2 M2 I2)
as (I3 & E3 & R3).
destruct (bootstrap.exec_module (spec_name sp) (next w) w2)
as [[[]|e] w3]; cbn in *.
- rewrite R3. rewrite lookup_insert_eq. cbn.
split; [done|]. split; [by eapply ext_trans|]. split.
+ intros n Hn. rewrite R3. by rewrite lookup_insert_ne.
+ intros m [= <-]. rewrite R3. by rewrite lookup_insert_eq.
- split; [by apply (inv_discard w3)|]. split.
+ eapply ext_trans; [exact E2|]. eapply ext_trans; [exact E3|].
exact (ext_set_registry w3 (delete (spec_name sp) (sys_modules w3))).
+ split; [|done]. intros n Hn. rewrite lookup_delete_ne by done.
rewrite R3. by rewrite lookup_insert_ne.
Qed.


(** What the import of [name] along the chain of parents [chain]
guarantees: [p] is left alone, only names of the chain are
(re)registered, and a module that comes back is registered under
[name]. *)
Definition import_post (name : string) (chain : list string) (w : world)
(rw : result loc * world) : Prop :=
inv rw.2 ∧ ext w rw.2
∧ (∀ n, n ≠ name → n ∉ chain →
  sys_modules rw.2 !! n = sys_modules w !! n)
∧ (∀ m, rw.1 = Ok m → sys_modules rw.2 !! name = Some m).

Lemma import_post_here name chain w m :
inv w → sys_modules w !! name = Some m →
import_post name chain w (Ok m, w).
Proof.
intros Hinv Hm. unfold import_post. cbn.
split; [done|]. split; [apply ext_refl|]. split; [done|].
by intros ? [= <-].
Qed.

Lemma import_post_raise name chain w e w' :
inv w' → ext w w' →
(∀ n, n ≠ name → n ∉ chain → sys_modules w' !! n = sys_modules w !! n) →
import_post name chain w (Raise e, w').
Proof. intros. unfold import_post. cbn. done. Qed.

Lemma leaf_frame name chain w :
inv w → import_post name chain w (bootstrap.find_and_load_leaf name w).
Proof.
intros Hinv. unfold bootstrap.find_and_load_leaf. cbn.
destruct (disk w !! name) as [src|]; cbn.
- destruct (load_unlocked_frame (bootstrap.spec_of name src) w Hinv)
as (I & E & U & R).
unfold import_post. split; [done|]. split; [done|]. split; [|done].
intros n Hn _. by apply U.
- apply import_post_raise; [done | apply ext_refl | done].
Qed.

Lemma find_and_load_eq name parents :
bootstrap._find_and_load name parents
= (cached <- sys.modules_get name ;;
 match cached with
 | Some module => bootstrap.ensure_initialized module ;; ret module
 | None =>
 match parents with
 | [] => bootstrap.find_and_load_leaf name
 | parent :: grandparents =>
     known <- sys.modules_get parent ;;
     match known with
     | Some _ => ret tt
     | None =>
         bootstrap._find_and_load parent grandparents ;; ret tt
     end ;;
     again <- sys.modules_get name ;;
     match again with
     | Some module => ret module
     | None =>
         parent_module <- sys.modules_getitem (VStr parent) ;;
         except_AttributeError
           (bootstrap.getattr_registered parent_module "__path__")
           (raise (ModuleNotFoundError name)) ;;
         module <- bootstrap.find_and_load_leaf name ;;
         parent_module <- sys.modules_getitem (VStr parent) ;;
         object_setattr parent_module (PyStr.last_segment name)
                        (VRef module) ;;
         ret module
     end
 end
 end).
Proof. destruct parents; reflexivity. Qed.

Lemma find_and_load_frame parents :
∀ name w, inv w →
import_post name parents w (bootstrap._find_and_load name parents w).
Proof.
induction parents as [|parent gps IH]; intros name w Hinv;
rewrite find_and_load_eq; cbn.
- destruct (sys_modules w !! name) as [module|] eqn:Hc; cbn.
+ rewrite ensure_initialized_module
by (eapply inv_registry; eauto).
cbn. by apply import_post_here.
+ by apply leaf_frame.
- destruct (sys_modules w !! name) as [module|] eqn:Hc; cbn.
{ rewrite ensure_initialized_module
by (eapply inv_registry; eauto).
cbn. by apply import_post_here. }
(* the parent is made available *)
set (step := match sys_modules w !! parent with
         | Some _ => ret tt
         | None => bind (bootstrap._find_and_load parent gps)
                        (fun _ => ret tt)
         end).
assert (inv (step w).2 ∧ ext w (step w).2
    ∧ ∀ n, n ≠ parent → n ∉ gps →
           sys_modules (step w).2 !! n = sys_modules w !! n)
as (I1 & E1 & U1).
{ unfold step. destruct (sys_modules w !! parent); cbn.
- split; [done|]. split; [apply ext_refl | done].
- destruct (IH parent w Hinv) as (I & E & U & _).
destruct (bootstrap._find_and_load parent gps w) as [[m|e] w1];
  cbn in *; done. }
assert (∀ n, n ≠ name → n ∉ parent :: gps →
         sys_modules (step w).2 !! n = sys_modules w !! n) as U1'.
{ intros n Hn Hnot. apply U1; set_solver. }
clear U1.
destruct (step w) as [[[]|e] w1]; cbn in *;
[| by apply import_post_raise].
destruct (sys_modules w1 !! name) as [module|] eqn:Hagain; cbn.
{ unfold import_post. cbn.
split; [done|]. split; [done|]. split; [done|].
by intros ? [= <-]. }
destruct (sys_modules w1 !! parent) as [pm|] eqn:Hpm; cbn;
[| by apply import_post_raise].
destruct (inv_registry _ I1 _ _ Hpm) as [Hpm_p (pob & Hpob & Hpc)].
rewrite (getattr_registered_module pm "__path__" w1 pob Hpob Hpc).
pose proof (module_getattribute_pure pm "__path__" w1) as Hpure.
destruct (module_getattribute_outcome pm "__path__" w1 pob Hpob)
as [[v Hv]|He];
destruct (module_getattribute pm "__path__" w1) as [r0 w0];
cbn in Hpure; subst w0; cbn in *; subst r0; cbn;
[| by apply import_post_raise].
destruct (leaf_frame name (parent :: gps) w1 I1) as (I2 & E2 & U2 & R2).
destruct (bootstrap.find_and_load_leaf name w1) as [[module|e] w2];
cbn in *.
2:{ apply import_post_raise; [done | by eapply ext_trans |].
intros n Hn Hnot. rewrite U2 by done. by apply U1'. }
destruct (sys_modules w2 !! parent) as [pm2|] eqn:Hpm2; cbn.
2:{ apply import_post_raise; [done | by eapply ext_trans |].
intros n Hn Hnot. rewrite U2 by done. by apply U1'. }
destruct (inv_registry _ I2 _ _ Hpm2) as [Hpm2_p (pob2 & Hpob2 & Hpc2)].
rewrite Hpob2. cbn.
assert (ext w2 (Store.set_heap
              (<[pm2 := Obj (cls pob2)
                            (<[PyStr.last_segment name := VRef module]>
                               (ns pob2))]> (heap w2)) w2)) as E3.
{ apply ext_write; [done|]. intros ob0. rewrite Hpob2.
by intros [= <-]. }
unfold import_post. cbn. split; [|split; [|split]].
+ eapply inv_ext_same_registry; [exact I2 | exact E3 | done].
+ eapply ext_trans; [exact E1|]. eapply ext_trans; [exact E2|exact E3].
+ intros n Hn Hnot. rewrite U2 by done. by apply U1'.
+ intros m [= <-]. by apply R2.
Qed.


Lemma gcd_import_frame name w :
inv w →
import_post name (PyStr.ancestors name) w (bootstrap._gcd_import name w).
Proof.
intros Hinv. unfold bootstrap._gcd_import. case_decide.
- apply import_post_raise; [done | apply ext_refl | done].
- by apply find_and_load_frame.
Qed.

(** What a call of [__import__] or of [importlib.import_module] for
[name] guarantees: beyond the record of the call, only what the
import system does. *)
Definition call_post (name : string) (w : world)
(rw : result loc * world) : Prop :=
inv rw.2
∧ ext (Store.emit (ImportCall name) w).2 rw.2
∧ (∀ m, rw.1 = Ok m → ∃ module, sys_modules rw.2 !! name = Some module).

Lemma import_module_frame name w :
inv w →
(call_post name w (importlib.import_module (VStr name) w)
 ∧ ∀ m, (importlib.import_module (VStr name) w).1 = Ok m →
  sys_modules (importlib.import_module (VStr name) w).2 !! name
  = Some m)
∨ (∃ e, importlib.import_module (VStr name) w = (Raise e, w)).
Proof.
intros Hinv. unfold importlib.import_module.
destruct (PyStr.starts_with_dot name); [right; eauto|]. left.
cbn -[bootstrap._gcd_import].
match goal with
| |- context [bootstrap._gcd_import name ?w0] => set (w1 := w0)
end.
assert (inv w1) as I1 by (by apply (inv_emit w)).
destruct (gcd_import_frame name w1 I1) as (I & E & U & R).
destruct (bootstrap._gcd_import name w1) as [r w2]. cbn in *.
split; [|done]. split; [done|]. split; [done|]. eauto.
Qed.

End Frame.

Lemma split_dot_head_length (s : string) :
  ∀ f r, PyStr.split_dot s = f :: r →
         (String.length f ≤ String.length s)%nat
         ∧ (r ≠ [] → (String.length f < String.length s)%nat).
Proof.
  induction s as [|c rest IH]; intros f r; cbn.
  - intros [= <- <-]. split; [done | congruence].
  - destruct (Ascii.eqb c "."%char).
    + intros [= <- <-]. cbn. split; [lia | intros; lia].
    + destruct (PyStr.split_dot rest) as [|seg segs] eqn:Hsplit.
      * intros [= <- <-]. cbn. split; [lia | congruence].
      * intros [= <- <-]. cbn. destruct (IH seg segs eq_refl) as [H1 H2].
        split; [lia|]. intros Hne. specialize (H2 Hne). lia.
Qed.

Lemma split_dot_front_differs (s front second : string) (rest : list string) :
  PyStr.split_dot s = front :: second :: rest → front ≠ s.
Proof.
  intros Hsplit ->.
  destruct (split_dot_head_length s s (second :: rest) Hsplit) as [_ H].
  specialize (H ltac:(congruence)). lia.
Qed.

Section FrameImport.

Variable p : loc.

Lemma builtin_import_frame name w :
inv p w → call_post p name w (__import__ (VStr name) w).
Proof.
intros Hinv. unfold __import__.
cbn -[bootstrap._gcd_import bootstrap._find_and_load PyStr.split_dot].
match goal with
| |- context [bootstrap._gcd_import name ?w0] => set (w1 := w0)
end.
assert (inv p w1) as I1 by (by apply (inv_emit p w)).
destruct (gcd_import_frame p name w1 I1) as (I & E & U & R).
destruct (bootstrap._gcd_import name w1) as [[m|e] w2]; cbn in *;
[| by unfold call_post].
specialize (R m eq_refl).
destruct (PyStr.split_dot name) as [|front [|second rest]] eqn:Hsplit;
try (unfold call_post; cbn; eauto).
destruct (find_and_load_frame p [] front w2 I) as (I' & E' & U' & R').
destruct (bootstrap._find_and_load front [] w2) as [r w3]. cbn in *.
split; [done|]. split; [by eapply ext_trans|].
intros top _. exists m. rewrite U'; [done| |set_solver].
intros ->. by eapply split_dot_front_differs.
Qed.

End FrameImport.

(** Settle the comparisons of attribute names that are both known. *)
Ltac names :=
  repeat first [ rewrite decide_False by discriminate
               | rewrite decide_True by reflexivity ];
  cbn.

(** ** Stores the proxies start from *)

(** Objects are allocated below the allocation mark, and every registered
    module is an ordinary module object: the store of a process that runs
    the first or the second variant. *)
Record wf (w : world) : Prop := Wf {
  wf_heap : ∀ l, is_Some (heap w !! l) → (l < next w)%nat;
  wf_registry :
    ∀ n m, sys_modules w !! n = Some m →
           ∃ ob, heap w !! m = Some ob ∧ cls ob = ModuleType
}.

(** [w1] is [w] with the new object [ob] at [l]. *)
Definition with_new (w : world) (l : loc) (ob : obj) : world :=
  World (disk w) (<[l := ob]> (heap w)) (S (next w)) (sys_modules w)
        (loader_state w) (log w).

Lemma inv_with_new w ob :
  wf w → inv (next w) (with_new w (next w) ob).
Proof.
  intros [Hheap Hreg]. split; cbn; [lia|].
  intros n m Hm. destruct (Hreg n m Hm) as (mob & Hmob & Hc).
  assert (m < next w)%nat as Hlt by (apply Hheap; eauto).
  split; [lia|]. exists mob. cbn. by rewrite lookup_insert_ne by lia.
Qed.

(** ** The class-swapping proxy *)

Lemma create_A_run name w :
  _LazyImport_FlavorA.create name w
  = (Ok (next w),
     with_new w (next w) (Obj LazyImport_A (module_init_dict name ∅))).
Proof.
  unfold _LazyImport_FlavorA.create, with_new. cbn.
  rewrite lookup_insert_eq. cbn. by rewrite insert_insert_eq.
Qed.

(** The store once [p] has swapped its class for the forwarding one. *)
Definition swapped (p m : loc) (d : gmap string value) (w : world) : world :=
  Store.set_heap (<[p := Obj (LoadedLazyImport m) d]> (heap w)) w.

Lemma A_getattribute_error p d name x w e w' :
  heap w !! p = Some (Obj LazyImport_A d) →
  d !! "__name__" = Some (VStr name) →
  __import__ (VStr name) w = (Raise e, w') →
  _LazyImport_FlavorA.__getattribute__ p x w = (Raise e, w').
Proof.
  intros Hp Hname Himp. unfold _LazyImport_FlavorA.__getattribute__.
  cbn. rewrite Hp. cbn. names. rewrite Hname. cbn. by rewrite Himp.
Qed.

Lemma A_getattribute_resolves p d name x w top w' :
  inv p w →
  heap w !! p = Some (Obj LazyImport_A d) →
  d !! "__name__" = Some (VStr name) →
  __import__ (VStr name) w = (Ok top, w') →
  ∃ m, sys_modules w' !! name = Some m
       ∧ module_at p w' m
       ∧ inv p w'
       ∧ _LazyImport_FlavorA.__getattribute__ p x w
         = module_getattribute m x (swapped p m d w').
Proof.
  intros Hinv Hp Hname Himp.
  destruct (builtin_import_frame p name w Hinv) as (I & E & R).
  rewrite Himp in I, E, R. cbn in I, E, R.
  destruct (R top eq_refl) as [m Hm]. exists m.
  pose proof (inv_registry _ _ I _ _ Hm) as Hmod.
  split; [done|]. split; [done|]. split; [done|].
  destruct Hmod as [Hmp (mob & Hmob & Hc)].
  unfold _LazyImport_FlavorA.__getattribute__.
  cbn. rewrite Hp. cbn. names. rewrite Hname. cbn. rewrite Himp. cbn.
  rewrite Hm. cbn.
  unfold bootstrap.bound_method_owner. cbn. rewrite Hmob. cbn.
  rewrite Hc. cbn.
  rewrite (ext_heap _ _ _ E). cbn. rewrite Hp. cbn.
  rewrite lookup_insert_ne by done. rewrite Hmob. cbn. rewrite Hc. cbn.
  rewrite lookup_insert_ne by done. rewrite Hmob. cbn.
  rewrite ?Hc. reflexivity.
Qed.

Lemma getattr_unresolved_A p d x w :
  heap w !! p = Some (Obj LazyImport_A d) →
  getattr p x w = _LazyImport_FlavorA.__getattribute__ p x w.
Proof. intros Hp. unfold getattr. cbn. rewrite Hp. reflexivity. Qed.

Lemma getattr_resolved_A p m d y w :
  heap w !! p = Some (Obj (LoadedLazyImport m) d) →
  getattr p y w = module_getattribute m y w.
Proof.
  intros Hp. unfold getattr, bootstrap.getattr_registered. cbn.
  repeat (rewrite Hp; cbn). reflexivity.
Qed.

Lemma getattr_module m d y w :
  heap w !! m = Some (Obj ModuleType d) →
  getattr m y w = module_getattribute m y w.
Proof.
  intros Hm. unfold getattr, bootstrap.getattr_registered. cbn.
  repeat (rewrite Hm; cbn). reflexivity.
Qed.

(** Reading a name bound in the namespace of a plain object. *)
Lemma module_getattribute_bound m c d y v w :
  heap w !! m = Some (Obj c d) →
  d !! y = Some v → y ≠ "__class__" → y ≠ "__dict__" →
  module_getattribute m y w = (Ok v, w).
Proof.
  intros Hm Hy H1 H2. cbn. rewrite Hm. cbn.
  rewrite !decide_False by done. by rewrite Hy.
Qed.

Lemma module_getattribute_missing m c d y w :
  heap w !! m = Some (Obj c d) →
  d !! y = None → y ≠ "__class__" → y ≠ "__dict__" →
  module_getattribute m y w = (Raise (AttributeError (VRef m) y), w).
Proof.
  intros Hm Hy H1 H2. cbn. rewrite Hm. cbn.
  rewrite !decide_False by done. by rewrite Hy.
Qed.

(** ** The proxy with a parent namespace *)

(** The namespace [__init__] gives the proxy. *)
Definition B_namespace (parent_globals : loc) (name : string)
  : gmap string value :=
  module_init_dict name
    (<["_parent_module_globals" := VDict parent_globals]>
       (<["_local_name" := VStr (PyStr.last_segment name)]> ∅)).

Lemma create_B_run globals name given w :
  _LazyImport_FlavorB.create globals name given w
  = (Ok (next w),
     with_new w (next w)
       (Obj LazyImport_B (B_namespace (default globals given) name))).
Proof.
  unfold _LazyImport_FlavorB.create, _LazyImport_FlavorB.__init__,
    with_new, B_namespace.
  cbn. heap_steps. rewrite !insert_insert_eq. by destruct given.
Qed.


(** A read that the instance cannot answer goes to [__getattr__]. *)
Lemma getattr_B_missing p d y w :
  heap w !! p = Some (Obj LazyImport_B d) →
  d !! y = None → y ≠ "__class__" → y ≠ "__dict__" →
  getattr p y w = _LazyImport_FlavorB.__getattr__ p y w.
Proof.
  intros Hp Hy H1 H2. unfold getattr. cbn. rewrite Hp. cbn.
  rewrite Hp. cbn. rewrite !decide_False by done. by rewrite Hy.
Qed.

(** What [_load] leaves behind when the import succeeds. *)
Record loaded (p : loc) (d : gmap string value) (g : loc) (leaf : string)
    (name : string) (m : loc) (w' w'' : world) : Prop := Loaded {
  loaded_registry : sys_modules w'' = sys_modules w';
  loaded_entry : sys_modules w'' !! name = Some m;
  loaded_log : log w'' = log w';
  loaded_disk : disk w'' = disk w';
  loaded_inv : inv p w'';
  loaded_module : ∃ dm, heap w'' !! m = Some (Obj ModuleType dm)
                        ∧ heap w'' !! p = Some (Obj LazyImport_B (dm ∪ d));
  loaded_parent : ∃ gob, heap w'' !! g = Some gob
                         ∧ ns gob !! leaf = Some (VRef m);
  loaded_others : ∀ l, l ≠ p → l ≠ g → heap w'' !! l = heap w' !! l
}.

Lemma B_load_error p d name w e w' :
  heap w !! p = Some (Obj LazyImport_B d) →
  d !! "__name__" = Some (VStr name) →
  importlib.import_module (VStr name) w = (Raise e, w') →
  _LazyImport_FlavorB._load p w = (Raise e, w').
Proof.
  intros Hp Hname Himp.
  unfold _LazyImport_FlavorB._load, _LazyImport_FlavorB.self_attr.
  cbn. rewrite Hp. cbn. names. rewrite Hname. cbn. by rewrite Himp.
Qed.

Lemma B_load_run p d name g leaf w m w' :
  inv p w →
  heap w !! p = Some (Obj LazyImport_B d) →
  d !! "__name__" = Some (VStr name) →
  d !! "_parent_module_globals" = Some (VDict g) →
  d !! "_local_name" = Some (VStr leaf) →
  g ≠ p → is_Some (heap w !! g) →
  importlib.import_module (VStr name) w = (Ok m, w') →
  ∃ w'', _LazyImport_FlavorB._load p w = (Ok m, w'')
         ∧ loaded p d g leaf name m w' w''.
Proof.
  intros Hinv Hp Hname Hg Hleaf Hgp Halive Himp.
  destruct (import_module_frame p name w Hinv) as [[(I & E & _) R]|[e He]];
    [| congruence].
  rewrite Himp in I, E, R. cbn in I, E, R.
  specialize (R m eq_refl).
  destruct (inv_registry _ _ I _ _ R) as [Hmp (mob & Hmob & Hc)].
  destruct (ext_alive _ _ _ E g Halive) as [gob Hgob].
  assert (heap w' !! p = Some (Obj LazyImport_B d)) as Hp'.
  { rewrite (ext_heap _ _ _ E). exact Hp. }
  unfold _LazyImport_FlavorB._load, _LazyImport_FlavorB.self_attr.
  cbn. rewrite Hp. cbn. names. rewrite Hname. cbn. rewrite Himp. cbn.
  rewrite Hp'. cbn. names. rewrite Hg. cbn.
  rewrite Hp'. cbn. names. rewrite Hleaf. cbn.
  unfold dict_setitem. cbn. rewrite Hgob. cbn.
  rewrite lookup_insert_ne by done. rewrite Hp'. cbn. names.
  unfold bootstrap.getattr_registered. cbn.
  set (g' := Obj (cls gob) (<[leaf := VRef m]> (ns gob))).
  (* the module as it is once the parent namespace has been written *)
  assert (∃ dm, <[g := g']> (heap w') !! m = Some (Obj ModuleType dm))
    as [dm Hdm].
  { destruct (decide (g = m)) as [->|Hne].
    - rewrite lookup_insert_eq. unfold g'. exists (<[leaf := VRef m]> (ns gob)).
      rewrite Hgob in Hmob. injection Hmob as ->. by rewrite Hc.
    - rewrite lookup_insert_ne by done. exists (ns mob).
      rewrite Hmob. destruct mob as [c dm0]. cbn in Hc. by subst. }
  rewrite Hdm. cbn. rewrite Hdm. cbn. names.
  unfold dict_update. cbn. rewrite Hdm. cbn.
  rewrite lookup_insert_ne by done. rewrite Hp'. cbn.
  eexists. split; [reflexivity|].
  split; cbn; try done.
  - split; cbn.
    + pose proof (inv_next _ _ I). done.
    + intros n0 m0 Hm0.
      destruct (inv_registry _ _ I _ _ Hm0) as [Hm0p (ob0 & Hob0 & Hc0)].
      split; [done|]. cbn. rewrite lookup_insert_ne by done.
      destruct (decide (g = m0)) as [->|Hne].
      * rewrite lookup_insert_eq. exists g'. split; [done|]. unfold g'. cbn.
        rewrite Hgob in Hob0. by injection Hob0 as ->.
      * rewrite lookup_insert_ne by done. eauto.
  - exists dm. rewrite lookup_insert_ne by done. rewrite Hdm.
    by rewrite lookup_insert_eq.
  - rewrite lookup_insert_ne by done. rewrite lookup_insert_eq.
    exists g'. split; [done|]. unfold g'. cbn. by rewrite lookup_insert_eq.
  - intros l Hlp Hlg. by rewrite !lookup_insert_ne.
Qed.

(** ** Modules that are there to be found *)

(** The namespace of a module of [src] once its body has run. *)
Definition module_namespace (name : string) (src : source)
  : gmap string value :=
  bootstrap.run_body (src_body src)
    (bootstrap.init_module_attrs (bootstrap.spec_of name src)
       (module_init_dict name ∅)).

(** How [name] is spelled: a top-level module, or a direct submodule
    [leaf] of the top-level package [pkg]. *)
Inductive spelled (name : string) : option (string * string) → Prop :=
| spelled_top :
    PyStr.split_dot name = [ name ] → spelled name None
| spelled_sub pkg leaf :
    PyStr.split_dot name = [ pkg; leaf ] → pkg ≠ "" →
    spelled name (Some (pkg, leaf)).

(** [name] is not imported yet, its file is on the path, and the package
    it belongs to, if any, is an imported ordinary package. *)
Record findable (w : world) (name : string) (src : source)
    (place : option (string * string)) : Prop := Findable {
  findable_name : name ≠ "";
  findable_absolute : PyStr.starts_with_dot name = false;
  findable_new : sys_modules w !! name = None;
  findable_file : disk w !! name = Some src;
  findable_spelled : spelled name place;
  findable_package :
    ∀ pkg leaf, place = Some (pkg, leaf) →
      ∃ (pm : loc) pob, sys_modules w !! pkg = Some pm
                ∧ (pm < next w)%nat
                ∧ heap w !! pm = Some pob
                ∧ cls pob = ModuleType
                ∧ is_Some (ns pob !! "__path__")
}.

(** The store after the first import of a findable module: the module is
    the new object, registered under its name, its body has run once. *)
Record imported (name : string) (src : source) (w w' : world) : Prop :=
  Imported {
  imported_module :
    heap w' !! next w = Some (Obj ModuleType (module_namespace name src));
  imported_registry : sys_modules w' = <[name := next w]> (sys_modules w);
  imported_log : log w' = (log w ++ [ ExecModule name ])%list;
  imported_disk : disk w' = disk w;
  imported_next : next w' = S (next w);
  imported_state : loader_state w' = loader_state w;
  imported_others :
    ∀ l ob, heap w !! l = Some ob → l ≠ next w →
            ∃ ob', heap w' !! l = Some ob' ∧ cls ob' = cls ob
                   ∧ (¬ (∃ n, sys_modules w !! n = Some l) → ob' = ob)
}.

Lemma spelled_ancestors name place :
  spelled name place →
  PyStr.ancestors name
  = match place with Some (pkg, _) => [ pkg ] | None => [] end.
Proof.
  intros [Hs | pkg leaf Hs Hpkg]; unfold PyStr.ancestors; rewrite Hs; cbn.
  - reflexivity.
  - by rewrite decide_False.
Qed.

Lemma spelled_last_segment name pkg leaf :
  spelled name (Some (pkg, leaf)) → PyStr.last_segment name = leaf.
Proof.
  inversion 1 as [|? ? Hs]. unfold PyStr.last_segment. by rewrite Hs.
Qed.

Lemma spelled_parent_name name place :
  spelled name place →
  PyStr.parent_name name
  = match place with Some (pkg, _) => pkg | None => "" end.
Proof.
  intros [Hs | pkg leaf Hs Hpkg]; unfold PyStr.parent_name; by rewrite Hs.
Qed.

Lemma spelled_package_differs name pkg leaf :
  spelled name (Some (pkg, leaf)) → pkg ≠ name.
Proof.
  inversion 1 as [|? ? Hs]. by eapply split_dot_front_differs.
Qed.

Lemma run_leaf name src w :
  disk w !! name = Some src →
  ∃ w', bootstrap.find_and_load_leaf name w = (Ok (next w), w')
        ∧ heap w' = <[next w := Obj ModuleType (module_namespace name src)]>
                      (heap w)
        ∧ sys_modules w' = <[name := next w]> (sys_modules w)
        ∧ log w' = (log w ++ [ ExecModule name ])%list
        ∧ disk w' = disk w ∧ next w' = S (next w)
        ∧ loader_state w' = loader_state w.
Proof.
  intros Hsrc.
  unfold bootstrap.find_and_load_leaf, bootstrap._load_unlocked,
    bootstrap.exec_module.
  cbn. rewrite Hsrc. cbn. rewrite Hsrc. cbn. heap_steps.
  eexists. split; [reflexivity|]. cbn.
  rewrite insert_insert_eq. done.
Qed.

Lemma run_ensure_initialized m d w :
  heap w !! m = Some (Obj ModuleType d) →
  bootstrap.ensure_initialized m w = (Ok tt, w).
Proof.
  intros Hm. apply (ensure_initialized_module (S m)).
  split; [lia|]. eauto.
Qed.

Lemma run_gcd_import_cached name m d w :
  name ≠ "" →
  sys_modules w !! name = Some m →
  heap w !! m = Some (Obj ModuleType d) →
  bootstrap._gcd_import name w = (Ok m, w).
Proof.
  intros Hname Hreg Hm. unfold bootstrap._gcd_import.
  rewrite decide_False by done. rewrite find_and_load_eq. cbn.
  rewrite Hreg. cbn. by rewrite (run_ensure_initialized m d w Hm).
Qed.

Lemma run_gcd_import name src place w :
  findable w name src place →
  ∃ w', bootstrap._gcd_import name w = (Ok (next w), w')
        ∧ imported name src w w'.
Proof.
  intros [Hname Habs Hnew Hfile Hsp Hpkg].
  unfold bootstrap._gcd_import. rewrite decide_False by done.
  rewrite (spelled_ancestors name place Hsp), find_and_load_eq.
  destruct (run_leaf name src w Hfile)
    as (w1 & Hleaf & Hh & Hr & Hl & Hd & Hn & Hs).
  destruct place as [[pkg leaf]|]; cbn; rewrite Hnew; cbn.
  - destruct (Hpkg pkg leaf eq_refl)
      as (pm & pob & Hpm & Hlt & Hpob & Hc & [v Hv]).
    assert (name ≠ pkg) as Hdiff.
    { intros Heq. by eapply (spelled_package_differs name pkg leaf). }
    rewrite Hpm. cbn. rewrite Hnew. cbn. rewrite Hpm. cbn.
    destruct pob as [c dp]. cbn in Hc, Hv. subst c.
    unfold bootstrap.getattr_registered. cbn. rewrite Hpob. cbn.
    rewrite Hpob. cbn. names. rewrite Hv. cbn.
    rewrite Hleaf. cbn. rewrite Hr.
    rewrite lookup_insert_ne by done.
    rewrite Hpm. cbn. rewrite Hh.
    rewrite lookup_insert_ne by lia. rewrite Hpob. cbn.
    eexists. split; [reflexivity|].
    split; cbn; try done.
    + rewrite Hh. rewrite lookup_insert_ne by lia.
      by rewrite lookup_insert_eq.
    + intros l ob Hl0 Hne. rewrite Hh.
      destruct (decide (pm = l)) as [->|Hne'].
      * rewrite lookup_insert_eq. eexists. split; [done|]. cbn.
        rewrite Hpob in Hl0. injection Hl0 as <-. split; [done|].
        intros Hnot. exfalso. apply Hnot. eauto.
      * rewrite lookup_insert_ne by done. rewrite lookup_insert_ne by done.
        eauto.
  - rewrite Hleaf. eexists. split; [reflexivity|].
    split; try done.
    + rewrite Hh. by rewrite lookup_insert_eq.
    + intros l ob Hl0 Hne. exists ob. rewrite Hh.
      by rewrite lookup_insert_ne.
Qed.

Lemma findable_emit name src place w e :
  findable w name src place → findable (Store.emit e w).2 name src place.
Proof. intros [? ? ? ? ? ?]. by split. Qed.


Lemma run_import_module name src place w :
  findable w name src place →
  ∃ w', importlib.import_module (VStr name) w = (Ok (next w), w')
        ∧ imported name src (Store.emit (ImportCall name) w).2 w'.
Proof.
  intros Hf. unfold importlib.import_module.
  rewrite (findable_absolute _ _ _ _ Hf).
  cbn -[bootstrap._gcd_import].
  destruct (run_gcd_import name src place _
              (findable_emit name src place w (ImportCall name) Hf))
    as (w1 & Hrun & Himp).
  cbn in Hrun. rewrite Hrun. eauto.
Qed.

(** The store in which [find_spec] has located a findable module: the
    package, when there is one, has been asked for through [__import__]. *)
Definition located (place : option (string * string)) (w : world) : world :=
  match place with
  | Some (pkg, _) => (Store.emit (ImportCall pkg) w).2
  | None => w
  end.

Lemma run_find_spec name src place w :
  findable w name src place →
  importlib.find_spec name w
  = (Ok (VSpec (bootstrap.spec_of name src)), located place w).
Proof.
  intros [Hname Habs Hnew Hfile Hsp Hpkg].
  unfold importlib.find_spec. rewrite Habs.
  cbn -[bootstrap._gcd_import]. rewrite Hnew.
  rewrite (spelled_parent_name name place Hsp).
  destruct place as [[pkg leaf]|]; cbn -[bootstrap._gcd_import].
  - inversion Hsp as [|? ? Hs Hne]. subst.
    rewrite decide_False by done. cbn -[bootstrap._gcd_import].
    destruct (Hpkg pkg leaf eq_refl)
      as (pm & [c dp] & Hpm & Hlt & Hpob & Hc & [v Hv]).
    cbn in Hc, Hv. subst c.
    erewrite run_gcd_import_cached; [|done|exact Hpm|exact Hpob].
    cbn. unfold bootstrap.getattr_registered. cbn. rewrite Hpob. cbn.
    rewrite Hpob. cbn. names. rewrite Hv. cbn. by rewrite Hfile.
  - rewrite decide_True by done. cbn. by rewrite Hfile.
Qed.

(** The namespace of a module created from its spec, before its body
    runs. *)
Definition spec_namespace (name : string) (src : source)
  : gmap string value :=
  bootstrap.init_module_attrs (bootstrap.spec_of name src)
    (module_init_dict name ∅).

Lemma spec_namespace_spec name src :
  spec_namespace name src !! "__spec__"
  = Some (VSpec (bootstrap.spec_of name src)).
Proof.
  unfold spec_namespace, bootstrap.init_module_attrs. cbn.
  destruct (src_is_package src); by map_lookup.
Qed.

(** The store right after [_LazyImport_FlavorC] has returned. *)
Definition lazily_registered (name : string) (src : source) (w : world)
  : world :=
  World (disk w)
        (<[next w := Obj LazyModule (spec_namespace name src)]> (heap w))
        (S (next w))
        (<[name := next w]> (sys_modules w))
        (<[next w := spec_namespace name src]> (loader_state w))
        (log w).

Lemma run_create_C name src place w :
  findable w name src place →
  _LazyImport_FlavorC name w
  = (Ok (next w), lazily_registered name src (located place w)).
Proof.
  intros Hf. unfold _LazyImport_FlavorC. cbn.
  rewrite (run_find_spec name src place w Hf). cbn.
  unfold importlib.LazyLoader_exec_module. cbn. heap_steps.
  unfold lazily_registered, spec_namespace.
  rewrite insert_insert_eq. by destruct place as [[??]|].
Qed.

Lemma unchanged_namespace_has_no_updates (d : gmap string value) :
  filter (λ kv, d !! kv.1 ≠ Some kv.2) d = ∅.
Proof.
  apply map_empty_filter_2. intros k v Hk. cbn. by intros H.
Qed.

(** The first attribute read on a lazy module nobody has written to. *)
Lemma run_lazy_first_read l d sp src x w :
  heap w !! l = Some (Obj LazyModule d) →
  loader_state w !! l = Some d →
  d !! "__spec__" = Some (VSpec sp) →
  disk w !! spec_name sp = Some src →
  sys_modules w !! spec_name sp = Some l →
  getattr l x w
  = module_getattribute l x
      (World (disk w)
             (<[l := Obj ModuleType (bootstrap.run_body (src_body src) d)]>
                (heap w))
             (next w) (sys_modules w) (loader_state w)
             (log w ++ [ ExecModule (spec_name sp) ])%list).
Proof.
  intros Hl Hstate Hspec Hsrc Hreg.
  unfold getattr, bootstrap.getattr_registered,
    bootstrap._LazyModule__getattribute__, bootstrap._LazyModule_load,
    bootstrap.exec_module.
  cbn.
  repeat (first [ rewrite Hl | rewrite Hspec | rewrite Hstate | rewrite Hsrc
                | rewrite Hreg
                | rewrite lookup_insert_eq
                | rewrite decide_False by discriminate
                | rewrite decide_True by done ]; cbn).
  rewrite unchanged_namespace_has_no_updates, (left_id_L ∅ (∪)).
  rewrite !insert_insert_eq. reflexivity.
Qed.

(** ** Reloading *)

Lemma reload_as_unregistered p v w :
  (∀ n, sys_modules w !! n ≠ Some p) →
  ∃ e, reload_as p v w = (Raise e, w).
Proof.
  intros Hunreg. unfold reload_as. destruct v; cbn; eauto.
  rewrite decide_False by apply Hunreg. cbn. eauto.
Qed.

(** An object the registry does not hold cannot be reloaded: [reload]
    finds a name, sees that [sys.modules] has something else under it (or
    nothing) and raises, without touching the store. *)
Lemma reload_unregistered p w :
  (∀ n, sys_modules w !! n ≠ Some p) →
  (getattr p "__spec__" w).2 = w →
  (getattr p "__name__" w).2 = w →
  ∃ e, reload p w = (Raise e, w).
Proof.
  intros Hunreg H1 H2. unfold reload, reload_name. cbn -[getattr].
  destruct (getattr p "__spec__" w) as [r1 w1]. cbn in H1. subst w1.
  destruct (getattr p "__name__" w) as [r2 w2] eqn:E2. cbn in H2. subst w2.
  pose proof (λ v, reload_as_unregistered p v w Hunreg) as Hcheck.
  destruct r1 as [v1|e1]; cbn.
  - destruct v1; cbn; rewrite ?E2; cbn;
      try (destruct r2 as [v2|e2]; cbn;
           [ apply Hcheck | destruct e2; cbn; eauto ]).
  - destruct e1; cbn; rewrite ?E2; cbn; eauto.
    destruct r2 as [v2|e2]; cbn; [apply Hcheck | destruct e2; cbn; eauto].
Qed.

(** ** Resolution of the class-swapping proxy *)

Lemma module_init_dict_name name d :
  module_init_dict name d !! "__name__" = Some (VStr name).
Proof. unfold module_init_dict. by map_lookup. Qed.

(** The first attribute read on a new proxy: either the import fails and
    the read fails with it, in the same store, or the import succeeds, the
    proxy swaps its class, and the read is the module's own. *)
Lemma A_first_read w name x p w1 :
  wf w →
  _LazyImport_FlavorA.create name w = (Ok p, w1) →
  (∃ e w', __import__ (VStr name) w1 = (Raise e, w')
           ∧ getattr p x w1 = (Raise e, w')
           ∧ heap w' !! p = heap w1 !! p)
  ∨ (∃ top w' m dm,
       __import__ (VStr name) w1 = (Ok top, w')
       ∧ sys_modules w' !! name = Some m
       ∧ m ≠ p
       ∧ heap w' !! m = Some (Obj ModuleType dm)
       ∧ inv p w'
       ∧ ext p (Store.emit (ImportCall name) w1).2 w'
       ∧ getattr p x w1
         = module_getattribute m x
             (swapped p m (module_init_dict name ∅) w')).
Proof.
  intros Hwf Hcreate. rewrite create_A_run in Hcreate.
  injection Hcreate as <- <-.
  set (d := module_init_dict name ∅).
  set (w1 := with_new w (next w) (Obj LazyImport_A d)).
  assert (inv (next w) w1) as Hinv by (by apply inv_with_new).
  assert (heap w1 !! next w = Some (Obj LazyImport_A d)) as Hp
    by (cbn; by rewrite lookup_insert_eq).
  assert (d !! "__name__" = Some (VStr name)) as Hname
    by apply module_init_dict_name.
  rewrite (getattr_unresolved_A (next w) d x w1 Hp).
  pose proof (builtin_import_frame (next w) name w1 Hinv) as (I & E & _).
  destruct (__import__ (VStr name) w1) as [[top|e] w'] eqn:Himp.
  - right.
    destruct (A_getattribute_resolves (next w) d name x w1 top w'
                Hinv Hp Hname Himp) as (m & Hm & Hmod & I' & Hrun).
    destruct Hmod as [Hne ([c dm] & Hob & Hc)]. cbn in Hc. subst c.
    exists top, w', m, dm. split_and!; done.
  - left. exists e, w'. split; [done|]. split.
    + by apply (A_getattribute_error (next w) d name x w1 e w').
    + cbn in E. by rewrite (ext_heap _ _ _ E).
Qed.

(** Reading through a resolved proxy is reading the module. *)
Lemma A_resolved_reads p m d dm w :
  heap w !! p = Some (Obj (LoadedLazyImport m) d) →
  heap w !! m = Some (Obj ModuleType dm) →
  ∀ y, getattr p y w = getattr m y w ∧ (getattr p y w).2 = w.
Proof.
  intros Hp Hm y.
  rewrite (getattr_resolved_A p m d y w Hp), (getattr_module m dm y w Hm).
  split; [done | apply module_getattribute_pure].
Qed.


(** The names a proxy of the second variant answers by itself. *)
Definition B_own_names : list string :=
  [ "__name__"; "__doc__"; "__package__"; "__loader__"; "__spec__";
    "_local_name"; "_parent_module_globals"; "__class__"; "__dict__" ].



(** ** Resolution of the proxy with a parent namespace *)

Lemma B_namespace_own g name x :
  x ∉ B_own_names → B_namespace g name !! x = None.
Proof.
  intros Hx. unfold B_namespace, module_init_dict.
  rewrite !lookup_insert_ne; [apply lookup_empty | ..];
    intros <-; apply Hx; unfold B_own_names; set_solver.
Qed.

Lemma B_own_names_type_level x :
  x ∉ B_own_names → x ≠ "__class__" ∧ x ≠ "__dict__".
Proof.
  intros Hx. split; intros ->; apply Hx; unfold B_own_names; set_solver.
Qed.

Lemma B_namespace_bound g name :
  B_namespace g name !! "__name__" = Some (VStr name)
  ∧ B_namespace g name !! "_parent_module_globals" = Some (VDict g)
  ∧ B_namespace g name !! "_local_name"
    = Some (VStr (PyStr.last_segment name)).
Proof. unfold B_namespace, module_init_dict. split_and!; by map_lookup. Qed.

(** A read, on a new proxy, of a name the proxy lacks: the import fails
    and the read with it, or the module is loaded into the proxy and the
    read is the module's own. *)
Lemma B_first_miss w globals given name x p w1 :
  wf w → is_Some (heap w !! default globals given) →
  _LazyImport_FlavorB.create globals name given w = (Ok p, w1) →
  x ∉ B_own_names →
  let g := default globals given in
  let d := B_namespace g name in
  heap w1 !! p = Some (Obj LazyImport_B d)
  ∧ inv p w1
  ∧ ((∃ e w', importlib.import_module (VStr name) w1 = (Raise e, w')
              ∧ getattr p x w1 = (Raise e, w'))
     ∨ (∃ m w' w'',
          importlib.import_module (VStr name) w1 = (Ok m, w')
          ∧ loaded p d g (PyStr.last_segment name) name m w' w''
          ∧ getattr p x w1 = module_getattribute m x w'')).
Proof.
  intros Hwf Halive Hcreate Hx g d. rewrite create_B_run in Hcreate.
  injection Hcreate as <- <-. fold g. fold d.
  set (w1 := with_new w (next w) (Obj LazyImport_B d)).
  assert (inv (next w) w1) as Hinv by (by apply inv_with_new).
  assert (heap w1 !! next w = Some (Obj LazyImport_B d)) as Hp
    by (cbn; by rewrite lookup_insert_eq).
  destruct (B_namespace_bound g name) as (Hname & Hg & Hleaf).
  destruct (B_own_names_type_level x Hx) as [Hc1 Hc2].
  assert (g ≠ next w) as Hgp.
  { pose proof (wf_heap _ Hwf g Halive). lia. }
  assert (is_Some (heap w1 !! g)) as Halive1.
  { cbn. by rewrite lookup_insert_ne. }
  split; [done|]. split; [done|].
  rewrite (getattr_B_missing (next w) d x w1 Hp
             (B_namespace_own g name x Hx) Hc1 Hc2).
  unfold _LazyImport_FlavorB.__getattr__. cbn.
  destruct (importlib.import_module (VStr name) w1) as [[m|e] w'] eqn:Himp.
  - right.
    destruct (B_load_run (next w) d name g (PyStr.last_segment name) w1 m w'
                Hinv Hp Hname Hg Hleaf Hgp Halive1 Himp)
      as (w'' & Hload & Hloaded).
    rewrite Hload. exists m, w', w''. split; [done|]. split; [done|].
    destruct (loaded_module _ _ _ _ _ _ _ _ Hloaded) as (dm & Hm & _).
    by rewrite (getattr_registered_module m x w'' _ Hm).
  - left. exists e, w'. split; [done|].
    by rewrite (B_load_error (next w) d name w1 e w' Hp Hname Himp).
Qed.


(** ** A small interpreter to run the statements on *)

Module Demo.

(** One optional module with [attr = 42] on the path. *)
Definition files : gmap string source :=
<["optional" := Source "optional.py" false [ ("attr", VInt 42) ]]> ∅.

(** The interpreter once [lazy_import] is imported: its module object is
object 0, so that [globals()] inside the classes is the namespace of
object 0. *)
Definition start : world :=
(bind (bootstrap.module_from_spec transformer_engine.lazy_import_spec)
(sys.modules_setitem "transformer_engine.lazy_import")
(World files ∅ 0%nat ∅ ∅ [])).2.

Definition globals : loc := 0%nat.


Definition created (f : flavor) : world :=
(LazyImport f globals "optional" start).2.

(** The store after [proxy.attr] has been read on the new proxy [p]. *)
Definition after_attr (f : flavor) (p : loc) : world :=
(getattr p "attr" (created f)).2.

End Demo.

Lemma Demo_start_wf : wf Demo.start.
Proof.
  split.
  - intros l [ob Hl]. cbn in *.
    destruct (decide (l = 0%nat)) as [->|Hne]; [lia|].
    rewrite lookup_insert_ne in Hl by done. by rewrite lookup_empty in Hl.
  - intros n m Hm. cbn in *.
    destruct (decide (n = "transformer_engine.lazy_import")) as [->|Hne].
    + rewrite lookup_insert_eq in Hm. injection Hm as <-.
      rewrite lookup_insert_eq. eauto.
    + rewrite lookup_insert_ne in Hm by done. by rewrite lookup_empty in Hm.
Qed.

Lemma Demo_globals_alive : is_Some (heap Demo.start !! Demo.globals).
Proof. cbn. rewrite lookup_insert_eq. eauto. Qed.


(** ** C1: forwarding *)




(** ** C2: one-shot resolution *)

Definition is_import_call (e : event) : bool :=
  match e with
  | ImportCall _ => true
  | ExecModule _ => false
  end.


(** How often a module body has been executed. *)
Definition executions (l : list event) : nat :=
  length (List.filter (λ e, negb (is_import_call e)) l).



Lemma executions_app l1 l2 :
  executions (l1 ++ l2) = (executions l1 + executions l2)%nat.
Proof. unfold executions. by rewrite List.filter_app, length_app. Qed.







Lemma getattr_B_bound_pure p d y w :
  heap w !! p = Some (Obj LazyImport_B d) →
  is_Some (d !! y) → (getattr p y w).2 = w.
Proof.
  intros Hp [v Hv]. unfold getattr. cbn. rewrite Hp. cbn. rewrite Hp. cbn.
  repeat case_decide; cbn; try done. by rewrite Hv.
Qed.





(** ** C3: construction *)

Definition Demo_optional : source :=
  Source "optional.py" false [ ("attr", VInt 42) ].

Lemma Demo_optional_findable :
  findable Demo.start "optional" Demo_optional None.
Proof.
  split.
  - discriminate.
  - reflexivity.
  - vm_compute. reflexivity.
  - vm_compute. reflexivity.
  - apply spelled_top. reflexivity.
  - intros pkg leaf H. discriminate H.
Qed.

(** The claim about construction, for one variant: a proxy that has been
    constructed has left the registry and the record of imports as they
    were. *)
Definition construction_is_silent (f : flavor) : Prop :=
  ∀ w globals name p w1,
    LazyImport f globals name w = (Ok p, w1) →
    sys_modules w1 = sys_modules w ∧ log w1 = log w.

(** The class of the proxies of the first two variants. *)
Definition proxy_class (f : flavor) : pyclass :=
  match f with
  | FlavorA => LazyImport_A
  | FlavorB => LazyImport_B
  | FlavorC => LazyModule
  end.

(** Construction under the first two variants: it always succeeds, and
    the new proxy object is all that changes. *)
Definition constructs_only_the_proxy (f : flavor) : Prop :=
  ∀ w globals name,
    ∃ ob, LazyImport f globals name w
          = (Ok (next w), with_new w (next w) ob)
          ∧ cls ob = proxy_class f.

(** Construction under the third variant, for a module that can be found:
    the module object is created and registered under the name at once,
    as a lazy module whose body has not run. *)
Definition registers_lazy_module : Prop :=
  ∀ w globals name src place,
    findable w name src place →
    ∃ w1 d,
      LazyImport FlavorC globals name w = (Ok (next w), w1)
      ∧ sys_modules w1 = <[name := next w]> (sys_modules w)
      ∧ heap w1 !! next w = Some (Obj LazyModule d)
      ∧ executions (log w1) = executions (log w).

Lemma silent_of_only_proxy f :
  constructs_only_the_proxy f → construction_is_silent f.
Proof.
  intros H w globals name p w1 Hc.
  destruct (H w globals name) as (ob & Hrun & _).
  rewrite Hrun in Hc. by injection Hc as <- <-.
Qed.

Lemma only_proxy_A : constructs_only_the_proxy FlavorA.
Proof. intros w globals name. eexists. by rewrite <- create_A_run. Qed.

Lemma only_proxy_B : constructs_only_the_proxy FlavorB.
Proof.
  intros w globals name. eexists. split; [apply create_B_run | done].
Qed.

Lemma executions_located place w :
  executions (log (located place w)) = executions (log w).
Proof.
  destruct place as [[pkg leaf]|]; [|done].
  cbv [located Store.emit snd log]. rewrite executions_app.
  cbn. lia.
Qed.

Lemma lazy_module_C : registers_lazy_module.
Proof.
  intros w globals name src place Hf.
  exists (lazily_registered name src (located place w)),
         (spec_namespace name src).
  assert (next (located place w) = next w
          ∧ sys_modules (located place w) = sys_modules w) as [Hn Hr]
    by (by destruct place as [[??]|]).
  split_and!.
  - apply (run_create_C name src place w Hf).
  - cbn. by rewrite Hn, Hr.
  - cbn. rewrite Hn. by rewrite lookup_insert_eq.
  - cbn. apply executions_located.
Qed.

(** C3.  Under the first two variants constructing a proxy
    imports nothing and leaves the registry unchanged: the construction
    always succeeds and only adds the proxy object.  Under the third
    variant the construction itself puts a module object in the registry
    under the name: a lazy module, whose body has not been executed. *)
Theorem C3_construction :
  constructs_only_the_proxy FlavorA
  ∧ constructs_only_the_proxy FlavorB
  ∧ construction_is_silent FlavorA
  ∧ construction_is_silent FlavorB
  ∧ registers_lazy_module.
Proof.
  split_and!.
  - exact only_proxy_A.
  - exact only_proxy_B.
  - exact (silent_of_only_proxy _ only_proxy_A).
  - exact (silent_of_only_proxy _ only_proxy_B).
  - exact lazy_module_C.
Qed.

Lemma C3_witness :
  (sys_modules (Demo.created FlavorA) = sys_modules Demo.start
   ∧ log (Demo.created FlavorA) = log Demo.start)
  ∧ ∃ w1 d,
      LazyImport FlavorC Demo.globals "optional" Demo.start = (Ok 1%nat, w1)
      ∧ sys_modules w1 = <["optional" := 1%nat]> (sys_modules Demo.start)
      ∧ heap w1 !! 1%nat = Some (Obj LazyModule d)
      ∧ executions (log w1) = executions (log Demo.start).
Proof.
  split.
  - apply (proj1 (proj2 (proj2 C3_construction))
             Demo.start Demo.globals "optional" 1%nat
             (Demo.created FlavorA)).
    vm_compute. reflexivity.
  - apply (proj2 (proj2 (proj2 (proj2 C3_construction)))
             Demo.start Demo.globals "optional" Demo_optional None).
    exact Demo_optional_findable.
Defined.

(** Constructing the proxy of the third variant registers ["optional"]. *)
Lemma C3_counterexample : ¬ construction_is_silent FlavorC.
Proof.
  intros H.
  destruct (H Demo.start Demo.globals "optional" 1%nat
              (Demo.created FlavorC)) as [Hreg _].
  - vm_compute. reflexivity.
  - assert (sys_modules (Demo.created FlavorC) !! "optional"
            = sys_modules Demo.start !! "optional") as Hlook
      by (by rewrite Hreg).
    vm_compute in Hlook. discriminate Hlook.
Qed.

(** ** C4: where errors surface *)












(** ** C10: what [_load] writes *)



(** ** C6: reload *)

(** The claim about reload, for one variant: once a read through a new
    proxy has succeeded, [importlib.reload] of the proxy raises. *)
Definition reload_rejected (f : flavor) : Prop :=
  ∀ w globals name x p w1 v w2,
    wf w → is_Some (heap w !! globals) →
    LazyImport f globals name w = (Ok p, w1) →
    getattr p x w1 = (Ok v, w2) →
    ∃ e w3, reload p w2 = (Raise e, w3).

(** What holds of the first two variants: [reload] raises and leaves the
    whole store as it found it. *)
Definition reload_rejected_in_place (f : flavor) : Prop :=
  ∀ w globals name x p w1 v w2,
    wf w → is_Some (heap w !! globals) →
    LazyImport f globals name w = (Ok p, w1) →
    getattr p x w1 = (Ok v, w2) →
    ∃ e, reload p w2 = (Raise e, w2).

(** What holds of the third variant, for a top-level module on the path
    whose body leaves [__spec__] alone: after a first read, which executes
    the body once, [reload] of the proxy succeeds, returns the proxy and
    has executed the body a second time. *)
Definition reload_reexecutes_C : Prop :=
  ∀ w globals name src x p w1,
    findable w name src None →
    module_namespace name src !! "__spec__"
    = Some (VSpec (bootstrap.spec_of name src)) →
    LazyImport FlavorC globals name w = (Ok p, w1) →
    let w2 := (getattr p x w1).2 in
    ∃ w3, reload p w2 = (Ok p, w3)
          ∧ executions (log w2) = S (executions (log w1))
          ∧ executions (log w3) = S (executions (log w2)).

Lemma reload_in_place_rejected f :
  reload_rejected_in_place f → reload_rejected f.
Proof.
  intros H w globals name x p w1 v w2 Hwf Hg Hc Hr.
  destruct (H w globals name x p w1 v w2 Hwf Hg Hc Hr) as [e He]. eauto.
Qed.

Lemma reload_rejected_A : reload_rejected_in_place FlavorA.
Proof.
  intros w globals name x p w1 v w2 Hwf _ Hcreate Hread.
  unfold LazyImport in Hcreate.
  destruct (A_first_read w name x p w1 Hwf Hcreate)
    as [(e & w' & _ & Hfail & _)
       |(top & w' & m & dm & Himp & Hm & Hne & Hob & I & E & Hrun)].
  { congruence. }
  rewrite Hrun in Hread.
  pose proof (module_getattribute_pure m x
                (swapped p m (module_init_dict name ∅) w')) as Hpure.
  rewrite Hread in Hpure. cbn in Hpure. subst w2.
  set (w2 := swapped p m (module_init_dict name ∅) w') in *.
  assert (heap w2 !! p
          = Some (Obj (LoadedLazyImport m) (module_init_dict name ∅))) as Hp2
    by (cbn; by rewrite lookup_insert_eq).
  assert (heap w2 !! m = Some (Obj ModuleType dm)) as Hm2
    by (cbn; by rewrite lookup_insert_ne).
  apply reload_unregistered.
  - intros n Hn. cbn in Hn.
    by destruct (inv_registry p w' I n p Hn) as [Hpp _].
  - apply (A_resolved_reads p m _ dm w2 Hp2 Hm2).
  - apply (A_resolved_reads p m _ dm w2 Hp2 Hm2).
Qed.

Lemma B_namespace_import_names g name :
  is_Some (B_namespace g name !! "__spec__")
  ∧ is_Some (B_namespace g name !! "__name__").
Proof.
  unfold B_namespace, module_init_dict. split; eexists; by map_lookup.
Qed.

Lemma B_own_read_pure p g name x w :
  heap w !! p = Some (Obj LazyImport_B (B_namespace g name)) →
  x ∈ B_own_names → (getattr p x w).2 = w.
Proof.
  intros Hp Hx. unfold getattr. cbn. rewrite Hp. cbn. rewrite Hp. cbn.
  repeat case_decide; cbn; try done.
  assert (is_Some (B_namespace g name !! x)) as [v Hv].
  { unfold B_own_names in Hx. rewrite !elem_of_cons, elem_of_nil in Hx.
    unfold B_namespace, module_init_dict.
    destruct Hx as [->|[->|[->|[->|[->|[->|[->|[->|[->|[]]]]]]]]]];
      try done; eexists; by map_lookup. }
  by rewrite Hv.
Qed.

Lemma reload_rejected_B : reload_rejected_in_place FlavorB.
Proof.
  intros w globals name x p w1 v w2 Hwf Hg Hcreate Hread.
  unfold LazyImport in Hcreate.
  destruct (B_namespace_import_names globals name) as [Hspec Hname].
  destruct (decide (x ∈ B_own_names)) as [Hx|Hx].
  - rewrite create_B_run in Hcreate. injection Hcreate as <- <-.
    cbn [default] in *.
    set (d := B_namespace globals name) in *.
    set (w1 := with_new w (next w) (Obj LazyImport_B d)) in *.
    assert (inv (next w) w1) as Hinv by (by apply inv_with_new).
    assert (heap w1 !! next w = Some (Obj LazyImport_B d)) as Hp
      by (cbn; by rewrite lookup_insert_eq).
    pose proof (B_own_read_pure (next w) globals name x w1 Hp Hx) as Hpure.
    rewrite Hread in Hpure. cbn in Hpure. subst w2.
    apply reload_unregistered.
    + intros n Hn. by destruct (inv_registry _ _ Hinv n _ Hn) as [Hpp _].
    + by apply (getattr_B_bound_pure _ d).
    + by apply (getattr_B_bound_pure _ d).
  - destruct (B_first_miss w globals None name x p w1 Hwf Hg Hcreate Hx)
      as (Hp & Hinv & [(e & w' & _ & Hfail)
                      |(m & w' & w'' & Himp & L & Hrun)]).
    { congruence. }
    cbn [default] in *. rewrite Hrun in Hread.
    pose proof (module_getattribute_pure m x w'') as Hpure.
    rewrite Hread in Hpure. cbn in Hpure. subst w2.
    destruct (loaded_module _ _ _ _ _ _ _ _ L) as (dm & Hm & Hp'').
    apply reload_unregistered.
    + intros n Hn.
      by destruct (inv_registry _ _ (loaded_inv _ _ _ _ _ _ _ _ L) n _ Hn)
        as [Hpp _].
    + apply (getattr_B_bound_pure _ _ _ _ Hp'').
      rewrite lookup_union_is_Some. by right.
    + apply (getattr_B_bound_pure _ _ _ _ Hp'').
      rewrite lookup_union_is_Some. by right.
Qed.

(** [reload] of an ordinary top-level module that is registered under the
    name of its spec and still on the path: the import attributes are set
    again and the body is executed again, in the same object. *)
Lemma reload_registered l d name src w :
  heap w !! l = Some (Obj ModuleType d) →
  d !! "__spec__" = Some (VSpec (bootstrap.spec_of name src)) →
  sys_modules w !! name = Some l →
  PyStr.parent_name name = "" →
  disk w !! name = Some src →
  ∃ w', reload l w = (Ok l, w')
        ∧ log w' = (log w ++ [ ExecModule name ])%list.
Proof.
  intros Hl Hspec Hreg Htop Hdisk.
  unfold reload, reload_name. cbn -[getattr].
  rewrite (getattr_module l d "__spec__" w Hl).
  rewrite (module_getattribute_bound l _ d "__spec__" _ w Hl Hspec)
    by discriminate.
  cbn. unfold reload_as. cbn. rewrite Hreg. cbn.
  rewrite decide_True by reflexivity. rewrite Htop.
  rewrite decide_True by reflexivity. cbn. rewrite Hdisk. cbn.
  rewrite Hl. cbn. rewrite lookup_insert_eq. cbn.
  unfold bootstrap.exec_module. cbn. rewrite Hdisk. cbn.
  rewrite lookup_insert_eq. cbn. rewrite Hreg. cbn.
  eexists. split; reflexivity.
Qed.

Lemma reload_C : reload_reexecutes_C.
Proof.
  intros w globals name src x p w1 Hf Hspec Hcreate w2.
  unfold LazyImport in Hcreate.
  rewrite (run_create_C name src None w Hf) in Hcreate.
  injection Hcreate as <- <-. cbn [located] in *.
  set (w1 := lazily_registered name src w) in *.
  pose proof (findable_file _ _ _ _ Hf) as Hdisk.
  assert (getattr (next w) x w1
          = module_getattribute (next w) x
              (World (disk w1)
                 (<[next w := Obj ModuleType
                                (bootstrap.run_body (src_body src)
                                   (spec_namespace name src))]> (heap w1))
                 (next w1) (sys_modules w1) (loader_state w1)
                 (log w1 ++ [ ExecModule name ])%list)) as Hread.
  { apply (run_lazy_first_read (next w) (spec_namespace name src)
             (bootstrap.spec_of name src) src x w1).
    - cbn. by rewrite lookup_insert_eq.
    - cbn. by rewrite lookup_insert_eq.
    - apply spec_namespace_spec.
    - exact Hdisk.
    - cbn. by rewrite lookup_insert_eq. }
  assert (w2 = World (disk w1)
                 (<[next w := Obj ModuleType
                                (bootstrap.run_body (src_body src)
                                   (spec_namespace name src))]> (heap w1))
                 (next w1) (sys_modules w1) (loader_state w1)
                 (log w1 ++ [ ExecModule name ])%list) as Hw2.
  { unfold w2. rewrite Hread. apply module_getattribute_pure. }
  clearbody w2. subst w2.
  destruct (reload_registered (next w)
              (bootstrap.run_body (src_body src) (spec_namespace name src))
              name src
              (World (disk w1)
                 (<[next w := Obj ModuleType
                                (bootstrap.run_body (src_body src)
                                   (spec_namespace name src))]> (heap w1))
                 (next w1) (sys_modules w1) (loader_state w1)
                 (log w1 ++ [ ExecModule name ])%list))
    as (w3 & Hreload & Hlog).
  - cbn. by rewrite lookup_insert_eq.
  - exact Hspec.
  - cbn. by rewrite lookup_insert_eq.
  - by rewrite (spelled_parent_name name None (findable_spelled _ _ _ _ Hf)).
  - exact Hdisk.
  - exists w3. split; [exact Hreload|]. split.
    + cbn [log]. rewrite executions_app. cbn. lia.
    + rewrite Hlog. rewrite executions_app. cbn. lia.
Qed.

(** C6.  Once a read through a proxy of the first or of the
    second variant has succeeded, [importlib.reload] of the proxy raises
    and leaves the store unchanged: the registry never holds the proxy
    itself.  Under the third variant the proxy is the registered module,
    and [reload] of it succeeds and executes the module body again. *)
Theorem C6_reload_after_resolution :
  reload_rejected_in_place FlavorA
  ∧ reload_rejected_in_place FlavorB
  ∧ reload_rejected FlavorA
  ∧ reload_rejected FlavorB
  ∧ reload_reexecutes_C.
Proof.
  split_and!.
  - exact reload_rejected_A.
  - exact reload_rejected_B.
  - exact (reload_in_place_rejected _ reload_rejected_A).
  - exact (reload_in_place_rejected _ reload_rejected_B).
  - exact reload_C.
Qed.

Lemma C6_witness :
  (∃ e, reload 1%nat (Demo.after_attr FlavorA 1%nat)
        = (Raise e, Demo.after_attr FlavorA 1%nat))
  ∧ (∃ e, reload 1%nat (Demo.after_attr FlavorB 1%nat)
          = (Raise e, Demo.after_attr FlavorB 1%nat))
  ∧ ∃ w3, reload 1%nat (getattr 1%nat "attr" (Demo.created FlavorC)).2
          = (Ok 1%nat, w3)
          ∧ executions (log (getattr 1%nat "attr" (Demo.created FlavorC)).2)
            = S (executions (log (Demo.created FlavorC)))
          ∧ executions (log w3)
            = S (executions
                   (log (getattr 1%nat "attr" (Demo.created FlavorC)).2)).
Proof.
  destruct C6_reload_after_resolution as (HA & HB & _ & _ & HC).
  split_and!.
  - apply (HA Demo.start Demo.globals "optional" "attr" 1%nat
             (Demo.created FlavorA) (VInt 42)).
    + exact Demo_start_wf.
    + exact Demo_globals_alive.
    + vm_compute. reflexivity.
    + vm_compute. reflexivity.
  - apply (HB Demo.start Demo.globals "optional" "attr" 1%nat
             (Demo.created FlavorB) (VInt 42)).
    + exact Demo_start_wf.
    + exact Demo_globals_alive.
    + vm_compute. reflexivity.
    + vm_compute. reflexivity.
  - apply (HC Demo.start Demo.globals "optional" Demo_optional "attr" 1%nat
             (Demo.created FlavorC)).
    + exact Demo_optional_findable.
    + vm_compute. reflexivity.
    + vm_compute. reflexivity.
Defined.

(** Under the third variant [reload] of the resolved proxy returns. *)
Lemma C6_counterexample : ¬ reload_rejected FlavorC.
Proof.
  intros H.
  destruct (H Demo.start Demo.globals "optional" "attr" 1%nat
              (Demo.created FlavorC) (VInt 42)
              (Demo.after_attr FlavorC 1%nat)) as (e & w3 & Hr).
  - exact Demo_start_wf.
  - exact Demo_globals_alive.
  - vm_compute. reflexivity.
  - vm_compute. reflexivity.
  - vm_compute in Hr. discriminate Hr.
Qed.

(** ** C8: the representation *)

(** The text [_LazyImport_FlavorA.__repr__] builds for [name]. *)
Definition pending (name : string) : string :=
  "<module '" ++ name ++ "' will be lazily loaded>".


(** *** Texts, read from their end *)


Lemma string_app_cons c (s t : string) : String c s ++ t = String c (s ++ t).
Proof. reflexivity. Qed.

Lemma string_app_nil_l (t : string) : "" ++ t = t.
Proof. reflexivity. Qed.


Lemma string_app_assoc (s t u : string) : (s ++ t) ++ u = s ++ (t ++ u).
Proof.
  induction s as [|c s IH]; [done|]. by rewrite !string_app_cons, IH.
Qed.







(** *** The representation of an ordinary module *)







(** *** The three variants *)












(** ** C5: the variants compared *)




Lemma findable_with_new w name src place ob :
  findable w name src place →
  findable (with_new w (next w) ob) name src place.
Proof.
  intros [Hname Habs Hnew Hfile Hsp Hpkg]. split; try done.
  intros pkg leaf Hplace.
  destruct (Hpkg pkg leaf Hplace) as (pm & pob & Hpm & Hlt & Hpob & Hc & Hpath).
  exists pm, pob. cbn. split_and!; try done; [lia|].
  rewrite lookup_insert_ne by lia. done.
Qed.







(** * Further properties of the program *)

(** ** The selector text is read as [int] reads it *)

Fixpoint all_space (s : string) : bool :=
  match s with
  | EmptyString => true
  | String c rest => PyInt.is_space c && all_space rest
  end.

Lemma space_is_no_digit c :
  PyInt.is_space c = true →
  PyInt.digit_of c = None ∧ Ascii.eqb c "_" = false
  ∧ Ascii.eqb c "+" = false ∧ Ascii.eqb c "-" = false.
Proof.
  destruct c as [[] [] [] [] [] [] [] []]; vm_compute; intros H;
    try discriminate H; repeat split.
Qed.

Lemma int_by_sign text :
  PyInt.int text
  = match PyInt.lstrip text with
    | String c rest =>
        if Ascii.eqb c "+" then PyInt.magnitude rest
        else if Ascii.eqb c "-" then Z.opp <$> PyInt.magnitude rest
        else PyInt.magnitude (String c rest)
    | EmptyString => None
    end.
Proof.
  unfold PyInt.int. destruct (PyInt.lstrip text) as [|c rest]; [done|].
  destruct c as [[] [] [] [] [] [] [] []]; reflexivity.
Qed.

Lemma lstrip_all_space s : all_space s = true → PyInt.lstrip s = "".
Proof.
  induction s as [|c s IH]; [done|]. cbn. intros [Hc Hs]%andb_prop.
  rewrite Hc. by apply IH.
Qed.

Lemma lstrip_empty_all_space s : PyInt.lstrip s = "" → all_space s = true.
Proof.
  induction s as [|c s IH]; [done|]. cbn.
  destruct (PyInt.is_space c); [by auto | discriminate].
Qed.

Lemma lstrip_leading l s :
  all_space l = true → PyInt.lstrip (l ++ s) = PyInt.lstrip s.
Proof.
  induction l as [|c l IH]; [done|]. cbn. intros [Hc Hl]%andb_prop.
  rewrite string_app_cons. cbn. rewrite Hc. by apply IH.
Qed.

Lemma lstrip_trailing s r :
  PyInt.lstrip s ≠ "" → PyInt.lstrip (s ++ r) = PyInt.lstrip s ++ r.
Proof.
  induction s as [|c s IH]; [done|]. rewrite string_app_cons. cbn.
  destruct (PyInt.is_space c); [exact IH | by rewrite string_app_cons].
Qed.

Lemma digits_trailing r s acc us n :
  all_space r = true →
  PyInt.digits acc us s = Some n →
  PyInt.digits acc us (s ++ r) = Some n.
Proof.
  intros Hr. revert acc us.
  induction s as [|c s IH]; intros acc us H.
  - rewrite string_app_nil_l. cbn in H. destruct us; [discriminate|].
    injection H as <-. destruct r as [|c r]; [done|].
    cbn in Hr. apply andb_prop in Hr as [Hc Hr].
    destruct (space_is_no_digit c Hc) as (Hd & Hu & _).
    cbn. rewrite Hd, Hu, Hc. by rewrite (lstrip_all_space r Hr).
  - rewrite string_app_cons. cbn in *.
    destruct (PyInt.digit_of c); [by apply IH|].
    destruct us; [discriminate|].
    destruct (Ascii.eqb c "_"); [by apply IH|].
    destruct (PyInt.is_space c); [|discriminate].
    destruct (PyInt.lstrip s) eqn:Hs; [|discriminate].
    rewrite (lstrip_leading s r (lstrip_empty_all_space s Hs)).
    by rewrite (lstrip_all_space r Hr).
Qed.

Lemma magnitude_trailing r s n :
  all_space r = true →
  PyInt.magnitude s = Some n → PyInt.magnitude (s ++ r) = Some n.
Proof.
  intros Hr. destruct s as [|c s]; [discriminate|].
  rewrite string_app_cons. cbn.
  destruct (PyInt.digit_of c); [|discriminate]. by apply digits_trailing.
Qed.

(** [int] skips white space on both sides of the literal. *)
Lemma int_surrounding_space l r text n :
  all_space l = true → all_space r = true →
  PyInt.int text = Some n → PyInt.int (l ++ text ++ r) = Some n.
Proof.
  intros Hl Hr. rewrite !int_by_sign, (lstrip_leading l _ Hl).
  destruct (PyInt.lstrip text) as [|c rest] eqn:Hs; [discriminate|].
  rewrite (lstrip_trailing text r) by (rewrite Hs; discriminate).
  rewrite Hs, string_app_cons.
  destruct (Ascii.eqb c "+"); [by apply magnitude_trailing|].
  destruct (Ascii.eqb c "-").
  - destruct (PyInt.magnitude rest) as [k|] eqn:Hk; [|discriminate].
    intros [= <-]. by rewrite (magnitude_trailing r rest k Hr Hk).
  - rewrite <- string_app_cons. by apply magnitude_trailing.
Qed.

(** X1.  White space around the selector text changes neither the flavour that
    is bound nor, for a number outside the domain, the error raised. *)
Theorem selector_ignores_surrounding_space (env : environ) l r text n :
  all_space l = true → all_space r = true →
  PyInt.int text = Some n →
  LazyImport_binding (<["TE_LAZY_IMPORT_FLAVOR" := l ++ text ++ r]> env)
  = LazyImport_binding (<["TE_LAZY_IMPORT_FLAVOR" := text]> env).
Proof.
  intros Hl Hr Hint. unfold LazyImport_binding, _LazyImportFlavor.
  rewrite !lookup_insert_eq.
  change (default "1" (Some ?t)) with t.
  by rewrite (int_surrounding_space l r text n Hl Hr Hint), Hint.
Qed.

Lemma selector_space_witness :
  LazyImport_binding
    (<["TE_LAZY_IMPORT_FLAVOR" := " " ++ "2" ++ String "010" ""]> ∅)
  = LazyImport_binding (<["TE_LAZY_IMPORT_FLAVOR" := "2"]> ∅).
Proof.
  apply (selector_ignores_surrounding_space ∅ " " (String "010" "") "2" 2);
    reflexivity.
Defined.

(** ** The number in the error message reads back as the selector *)









(** ** The class-swapping proxy when the import fails *)

(** [__import__] of a name without a dot that is neither registered nor
    on the path. *)
Lemma run_builtin_import_missing name w :
  name ≠ "" → spelled name None →
  sys_modules w !! name = None → disk w !! name = None →
  __import__ (VStr name) w
  = (Raise (ModuleNotFoundError name), (Store.emit (ImportCall name) w).2).
Proof.
  intros Hname Hsp Hreg Hdisk. unfold __import__.
  cbn -[bootstrap._gcd_import PyStr.split_dot].
  unfold bootstrap._gcd_import. rewrite decide_False by done.
  rewrite (spelled_ancestors name None Hsp), find_and_load_eq.
  cbn. rewrite Hreg. cbn. unfold bootstrap.find_and_load_leaf. cbn.
  by rewrite Hdisk.
Qed.

Lemma A_read_of_missing p d name x w :
  heap w !! p = Some (Obj LazyImport_A d) →
  d !! "__name__" = Some (VStr name) →
  name ≠ "" → spelled name None →
  sys_modules w !! name = None → disk w !! name = None →
  getattr p x w
  = (Raise (ModuleNotFoundError name), (Store.emit (ImportCall name) w).2).
Proof.
  intros Hp Hd Hname Hsp Hreg Hdisk.
  rewrite (getattr_unresolved_A p d x w Hp).
  apply (A_getattribute_error p d name x w _ _ Hp Hd).
  by apply run_builtin_import_missing.
Qed.

Lemma repr_pending p d name w :
  heap w !! p = Some (Obj LazyImport_A d) →
  d !! "__name__" = Some (VStr name) →
  repr p w = (Ok (pending name), w).
Proof.
  intros Hp Hd. unfold repr, _LazyImport_FlavorA.__repr__. cbn.
  rewrite Hp. cbn. rewrite Hp. cbn. names. by rewrite Hd.
Qed.

(** X3.  A failed import is not remembered.  For a name without a dot that
    cannot be found, a read through a new class-swapping proxy raises
    [ModuleNotFoundError] and leaves the proxy as it was: it is still shown
    as pending, and the next read calls the import system again and fails
    the same way. *)
Theorem A_failed_import_is_retried w name p w1 x y :
  _LazyImport_FlavorA.create name w = (Ok p, w1) →
  name ≠ "" → spelled name None →
  sys_modules w !! name = None → disk w !! name = None →
  ∃ w2 w3,
    getattr p x w1 = (Raise (ModuleNotFoundError name), w2)
    ∧ repr p w2 = (Ok (pending name), w2)
    ∧ getattr p y w2 = (Raise (ModuleNotFoundError name), w3)
    ∧ log w3 = (log w ++ [ ImportCall name; ImportCall name ])%list
    ∧ sys_modules w3 = sys_modules w.
Proof.
  intros Hcreate Hname Hsp Hreg Hdisk.
  rewrite create_A_run in Hcreate. injection Hcreate as <- <-.
  set (d := module_init_dict name ∅).
  set (w1 := with_new w (next w) (Obj LazyImport_A d)).
  set (w2 := (Store.emit (ImportCall name) w1).2).
  assert (heap w1 !! next w = Some (Obj LazyImport_A d)) as Hp1
    by (cbn; by rewrite lookup_insert_eq).
  assert (heap w2 !! next w = Some (Obj LazyImport_A d)) as Hp2
    by exact Hp1.
  pose proof (module_init_dict_name name ∅) as Hd.
  exists w2, (Store.emit (ImportCall name) w2).2. split_and!.
  - by apply (A_read_of_missing _ d).
  - by apply (repr_pending _ d).
  - by apply (A_read_of_missing _ d).
  - cbn. by rewrite <- app_assoc.
  - done.
Qed.

Lemma A_failed_import_witness :
  ∃ w2 w3,
    getattr 1%nat "attr"
      (LazyImport FlavorA Demo.globals "missing" Demo.start).2
    = (Raise (ModuleNotFoundError "missing"), w2)
    ∧ repr 1%nat w2 = (Ok (pending "missing"), w2)
    ∧ getattr 1%nat "other" w2 = (Raise (ModuleNotFoundError "missing"), w3)
    ∧ log w3
      = (log Demo.start
           ++ [ ImportCall "missing"; ImportCall "missing" ])%list
    ∧ sys_modules w3 = sys_modules Demo.start.
Proof.
  apply (A_failed_import_is_retried Demo.start "missing" 1%nat).
  - vm_compute. reflexivity.
  - discriminate.
  - apply spelled_top. reflexivity.
  - vm_compute. reflexivity.
  - vm_compute. reflexivity.
Defined.

(** ** The class-swapping proxy for a module that is already imported *)

(** X4.  A class-swapping proxy for a name without a dot that is registered
    already resolves to the registered module: the read answers as the
    module does, the import system is called once and no module body is
    executed. *)
Theorem A_resolves_to_registered_module w name p w1 m dm x :
  wf w →
  _LazyImport_FlavorA.create name w = (Ok p, w1) →
  name ≠ "" → spelled name None →
  sys_modules w !! name = Some m →
  heap w !! m = Some (Obj ModuleType dm) →
  ∃ w2,
    getattr p x w1 = ((getattr m x w).1, w2)
    ∧ log w2 = (log w ++ [ ImportCall name ])%list
    ∧ heap w2 !! p
      = Some (Obj (LoadedLazyImport m) (module_init_dict name ∅))
    ∧ heap w2 !! m = Some (Obj ModuleType dm)
    ∧ sys_modules w2 = sys_modules w.
Proof.
  intros Hwf Hcreate Hname Hsp Hreg Hm.
  pose proof Hcreate as Hc.
  rewrite create_A_run in Hc. injection Hc as <- <-.
  set (d := module_init_dict name ∅) in *.
  set (w1 := with_new w (next w) (Obj LazyImport_A d)) in *.
  assert (m < next w)%nat as Hlt by (apply (wf_heap _ Hwf); eauto).
  assert (heap w1 !! m = Some (Obj ModuleType dm)) as Hm1
    by (cbn; by rewrite lookup_insert_ne by lia).
  assert (__import__ (VStr name) w1
          = (Ok m, (Store.emit (ImportCall name) w1).2)) as Himp.
  { unfold __import__.
    cbn -[bootstrap._gcd_import PyStr.split_dot].
    rewrite (run_gcd_import_cached name m dm); [| done | done | done].
    inversion Hsp as [Hs|]. by rewrite Hs. }
  destruct (A_first_read w name x (next w) w1 Hwf Hcreate)
    as [(e & w0 & Himp0 & _)
       |(top0 & w0 & m0 & dm0 & Himp0 & Hm0 & Hne & Hob & I & E & Hrun)].
  { congruence. }
  assert (w0 = (Store.emit (ImportCall name) w1).2) as -> by congruence.
  cbn in Hm0. assert (m0 = m) as -> by congruence.
  exists (swapped (next w) m d (Store.emit (ImportCall name) w1).2).
  split_and!.
  - rewrite Hrun, (getattr_module m dm x w Hm).
    unfold module_getattribute, object_getattribute. cbn.
    rewrite lookup_insert_ne by lia. rewrite lookup_insert_ne by lia.
    rewrite Hm. cbn.
    repeat case_decide; try done. by destruct (dm !! x).
  - done.
  - cbn. by rewrite lookup_insert_eq.
  - cbn. rewrite lookup_insert_ne by lia. by rewrite lookup_insert_ne by lia.
  - done.
Qed.

(** A check of [wf] that runs. *)
Definition wf_check (w : world) : bool :=
  bool_decide (map_Forall (λ l _, (l < next w)%nat) (heap w))
  && bool_decide
       (map_Forall (λ _ m, cls <$> heap w !! m = Some ModuleType)
          (sys_modules w)).

Lemma wf_check_sound w : wf_check w = true → wf w.
Proof.
  unfold wf_check. intros [H1 H2]%andb_prop.
  apply bool_decide_eq_true_1 in H1, H2. split.
  - intros l [ob Hl]. exact (H1 l ob Hl).
  - intros n m Hm. specialize (H2 n m Hm). cbn in H2.
    destruct (heap w !! m) as [ob|]; [|discriminate].
    exists ob. split; [done|]. cbn in H2. congruence.
Qed.

(** The example store once ["optional"] has been imported: its module is
    object 1. *)
Definition Demo_imported : world :=
  (__import__ (VStr "optional") Demo.start).2.

Lemma A_registered_witness :
  ∃ w2,
    getattr 2%nat "attr"
      (LazyImport FlavorA Demo.globals "optional" Demo_imported).2
    = ((getattr 1%nat "attr" Demo_imported).1, w2)
    ∧ log w2 = (log Demo_imported ++ [ ImportCall "optional" ])%list
    ∧ heap w2 !! 2%nat
      = Some (Obj (LoadedLazyImport 1%nat) (module_init_dict "optional" ∅))
    ∧ heap w2 !! 1%nat
      = Some (Obj ModuleType (module_namespace "optional" Demo_optional))
    ∧ sys_modules w2 = sys_modules Demo_imported.
Proof.
  apply (A_resolves_to_registered_module Demo_imported "optional" 2%nat).
  - apply wf_check_sound. vm_compute. reflexivity.
  - vm_compute. reflexivity.
  - discriminate.
  - apply spelled_top. reflexivity.
  - vm_compute. reflexivity.
  - vm_compute. reflexivity.
Defined.

(** ** Dotted names *)

(** The import of a submodule binds it in its package. *)
Lemma run_gcd_import_sub name src pkg leaf pm dp w :
  findable w name src (Some (pkg, leaf)) →
  sys_modules w !! pkg = Some pm →
  heap w !! pm = Some (Obj ModuleType dp) →
  ∃ w', bootstrap._gcd_import name w = (Ok (next w), w')
        ∧ imported name src w w'
        ∧ heap w' !! pm
          = Some (Obj ModuleType (<[leaf := VRef (next w)]> dp)).
Proof.
  intros [Hname Habs Hnew Hfile Hsp Hpkg] Hpm Hpob.
  unfold bootstrap._gcd_import. rewrite decide_False by done.
  rewrite (spelled_ancestors name _ Hsp), find_and_load_eq.
  destruct (run_leaf name src w Hfile)
    as (w1 & Hleaf & Hh & Hr & Hl & Hd & Hn & Hs).
  cbn; rewrite Hnew; cbn.
  destruct (Hpkg pkg leaf eq_refl)
    as (pm' & pob & Hpm' & Hlt & Hpob' & Hc & [v Hv]).
  assert (pm' = pm) as -> by congruence.
  assert (pob = Obj ModuleType dp) as -> by congruence.
  assert (name ≠ pkg) as Hdiff.
  { intros Heq. by eapply (spelled_package_differs name pkg leaf). }
  rewrite Hpm. cbn. rewrite Hnew. cbn. rewrite Hpm. cbn.
  cbn in Hv.
  unfold bootstrap.getattr_registered. cbn. rewrite Hpob. cbn.
  rewrite Hpob. cbn. names. rewrite Hv. cbn.
  rewrite Hleaf. cbn. rewrite Hr.
  rewrite lookup_insert_ne by done.
  rewrite Hpm. cbn. rewrite Hh.
  rewrite lookup_insert_ne by lia. rewrite Hpob. cbn.
  rewrite (spelled_last_segment name pkg leaf Hsp).
  eexists. split; [reflexivity|].
  split; [|cbn; by rewrite lookup_insert_eq].
  split; cbn; try done.
  + rewrite Hh. rewrite lookup_insert_ne by lia.
    by rewrite lookup_insert_eq.
  + intros l ob Hl0 Hne. rewrite Hh.
    destruct (decide (pm = l)) as [->|Hne'].
    * rewrite lookup_insert_eq. eexists. split; [done|]. cbn.
      rewrite Hpob in Hl0. injection Hl0 as <-. split; [done|].
      intros Hnot. exfalso. apply Hnot. eauto.
    * rewrite lookup_insert_ne by done. rewrite lookup_insert_ne by done.
      eauto.
Qed.

(** X5.  For a dotted name [__import__] hands back the top-level package, and
    the class-swapping proxy looks the module up in [sys.modules] under
    the full name: after the first read the proxy forwards to the
    submodule, not to the package.  The import has also bound the
    submodule in the package under its last segment, in place of whatever
    the package held there, the proxy itself for the proxies of
    [__init__.py]. *)
Theorem A_dotted_name_resolves_to_submodule
    p d name src pkg leaf pm dp w x :
  inv p w →
  heap w !! p = Some (Obj LazyImport_A d) →
  d !! "__name__" = Some (VStr name) →
  findable w name src (Some (pkg, leaf)) →
  sys_modules w !! pkg = Some pm →
  heap w !! pm = Some (Obj ModuleType dp) →
  ∃ w',
    __import__ (VStr name) w = (Ok pm, w')
    ∧ next w ≠ pm
    ∧ sys_modules (getattr p x w).2 !! name = Some (next w)
    ∧ heap (getattr p x w).2 !! p
      = Some (Obj (LoadedLazyImport (next w)) d)
    ∧ heap (getattr p x w).2 !! next w
      = Some (Obj ModuleType (module_namespace name src))
    ∧ heap (getattr p x w).2 !! pm
      = Some (Obj ModuleType (<[leaf := VRef (next w)]> dp)).
Proof.
  intros Hinv Hp Hd Hf Hpm Hpob.
  pose proof (inv_next _ _ Hinv) as Hpn.
  destruct (inv_registry _ _ Hinv _ _ Hpm) as [Hpmp _].
  destruct (findable_package _ _ _ _ Hf pkg leaf eq_refl)
    as (pm' & _ & Hpm' & Hlt & _).
  assert (pm' = pm) as -> by congruence.
  pose proof (findable_emit name src _ w (ImportCall name) Hf) as Hf1.
  destruct (run_gcd_import_sub name src pkg leaf pm dp
              (Store.emit (ImportCall name) w).2 Hf1 Hpm Hpob)
    as (w' & Hrun & Himp & Hbound).
  cbn [next Store.emit snd] in Hrun, Hbound.
  assert (name ≠ pkg) as Hdiff.
  { intros Heq.
    by apply (spelled_package_differs name pkg leaf
                (findable_spelled _ _ _ _ Hf)). }
  assert (__import__ (VStr name) w = (Ok pm, w')) as Hbuiltin.
  { unfold __import__.
    cbn -[bootstrap._gcd_import bootstrap._find_and_load PyStr.split_dot].
    cbn in Hrun. rewrite Hrun.
    pose proof (findable_spelled _ _ _ _ Hf) as Hsp.
    inversion Hsp as [|? ? Hs Hne]; subst. rewrite Hs.
    rewrite find_and_load_eq. cbn.
    rewrite (imported_registry _ _ _ _ Himp). cbn.
    rewrite lookup_insert_ne by done. rewrite Hpm. cbn.
    by rewrite (run_ensure_initialized pm _ w' Hbound). }
  destruct (A_getattribute_resolves p d name x w pm w' Hinv Hp Hd Hbuiltin)
    as (m & Hm & _ & _ & Hrun0).
  rewrite (imported_registry _ _ _ _ Himp) in Hm.
  rewrite lookup_insert_eq in Hm. injection Hm as <-.
  cbn [next Store.emit snd] in *.
  exists w'.
  rewrite (getattr_unresolved_A p d x w Hp), Hrun0, module_getattribute_pure.
  cbn. split_and!.
  - done.
  - lia.
  - rewrite (imported_registry _ _ _ _ Himp). by rewrite lookup_insert_eq.
  - by rewrite lookup_insert_eq.
  - rewrite lookup_insert_ne by lia.
    exact (imported_module _ _ _ _ Himp).
  - rewrite lookup_insert_ne by done. exact Hbound.
Qed.

(** A check of [inv] that runs. *)
Definition inv_check (p : loc) (w : world) : bool :=
  bool_decide (p < next w)%nat
  && bool_decide
       (map_Forall
          (λ _ m, m ≠ p ∧ cls <$> heap w !! m = Some ModuleType)
          (sys_modules w)).

Lemma inv_check_sound p w : inv_check p w = true → inv p w.
Proof.
  unfold inv_check. intros [H1 H2]%andb_prop.
  apply bool_decide_eq_true_1 in H1, H2. split; [done|].
  intros n m Hm. destruct (H2 n m Hm) as [Hne Hc]. split; [done|].
  destruct (heap w !! m) as [ob|]; [|discriminate].
  exists ob. split; [done|]. cbn in Hc. congruence.
Qed.

(** The package with its [pytorch] subpackage on the path, imported with
    no selector in the environment: the package is object 0 and the proxy
    bound to [pytorch] is object 4. *)
Module ExamplePackage.

Definition pytorch : source :=
Source "transformer_engine/pytorch/__init__.py" true [ ("attr", VInt 7) ].

Definition files : gmap string source :=
<["transformer_engine.pytorch" := pytorch]> Example99.files.

Definition ready : world :=
(transformer_engine.import_package ∅ (World files ∅ 0%nat ∅ ∅ [])).2.

End ExamplePackage.

Lemma ExamplePackage_pytorch_findable :
  findable ExamplePackage.ready "transformer_engine.pytorch"
    ExamplePackage.pytorch (Some ("transformer_engine", "pytorch")).
Proof.
  split.
  - discriminate.
  - reflexivity.
  - vm_compute. reflexivity.
  - vm_compute. reflexivity.
  - apply spelled_sub; [reflexivity | discriminate].
  - intros pkg leaf [= <- <-]. eexists 0%nat, _. split_and!.
    + vm_compute. reflexivity.
    + vm_compute. lia.
    + vm_compute. reflexivity.
    + reflexivity.
    + vm_compute. eauto.
Qed.

(** The namespace of the package in [ExamplePackage.ready]. *)
Definition ExamplePackage_namespace : gmap string value :=
  default ∅ (ns <$> heap ExamplePackage.ready !! 0%nat).

Lemma A_dotted_name_witness :
  ExamplePackage_namespace !! "pytorch" = Some (VRef 4%nat)
  ∧ ∃ w',
      __import__ (VStr "transformer_engine.pytorch") ExamplePackage.ready
      = (Ok 0%nat, w')
      ∧ 7%nat ≠ 0%nat
      ∧ sys_modules (getattr 4%nat "attr" ExamplePackage.ready).2
          !! "transformer_engine.pytorch" = Some 7%nat
      ∧ heap (getattr 4%nat "attr" ExamplePackage.ready).2 !! 4%nat
        = Some (Obj (LoadedLazyImport 7%nat)
                  (module_init_dict "transformer_engine.pytorch" ∅))
      ∧ heap (getattr 4%nat "attr" ExamplePackage.ready).2 !! 7%nat
        = Some (Obj ModuleType
                  (module_namespace "transformer_engine.pytorch"
                     ExamplePackage.pytorch))
      ∧ heap (getattr 4%nat "attr" ExamplePackage.ready).2 !! 0%nat
        = Some (Obj ModuleType
                  (<["pytorch" := VRef 7%nat]> ExamplePackage_namespace)).
Proof.
  split; [vm_compute; reflexivity|].
  apply (A_dotted_name_resolves_to_submodule 4%nat
           (module_init_dict "transformer_engine.pytorch" ∅)
           "transformer_engine.pytorch" ExamplePackage.pytorch
           "transformer_engine" "pytorch" 0%nat ExamplePackage_namespace
           ExamplePackage.ready "attr").
  - apply inv_check_sound. vm_compute. reflexivity.
  - vm_compute. reflexivity.
  - vm_compute. reflexivity.
  - exact ExamplePackage_pytorch_findable.
  - vm_compute. reflexivity.
  - vm_compute. reflexivity.
Defined.

(** ** More on the proxy with a parent namespace *)

(** [_load] on a proxy whose module is there to be found. *)
Lemma B_load_findable p d g name src place w :
  inv p w →
  heap w !! p = Some (Obj LazyImport_B d) →
  d !! "__name__" = Some (VStr name) →
  d !! "_parent_module_globals" = Some (VDict g) →
  d !! "_local_name" = Some (VStr (PyStr.last_segment name)) →
  g ≠ p → is_Some (heap w !! g) → (g < next w)%nat →
  findable w name src place →
  ∃ w' w'',
    importlib.import_module (VStr name) w = (Ok (next w), w')
    ∧ _LazyImport_FlavorB._load p w = (Ok (next w), w'')
    ∧ loaded p d g (PyStr.last_segment name) name (next w) w' w''
    ∧ heap w'' !! next w = Some (Obj ModuleType (module_namespace name src))
    ∧ log w'' = (log w ++ [ ImportCall name; ExecModule name ])%list.
Proof.
  intros Hinv Hp Hname Hg Hleaf Hgp Halive Hlt Hf.
  destruct (run_import_module name src place w Hf) as (w' & Himp & Hdone).
  destruct (B_load_run p d name g _ w (next w) w'
              Hinv Hp Hname Hg Hleaf Hgp Halive Himp)
    as (w'' & Hload & L).
  exists w', w''. split_and!; try done.
  - rewrite (loaded_others _ _ _ _ _ _ _ _ L).
    + exact (imported_module _ _ _ _ Hdone).
    + pose proof (inv_next _ _ Hinv). lia.
    + lia.
  - rewrite (loaded_log _ _ _ _ _ _ _ _ L), (imported_log _ _ _ _ Hdone).
    cbn. by rewrite <- app_assoc.
Qed.

(** What is known of a new proxy of the second variant. *)
Lemma B_new_proxy w globals given name p w1 :
  wf w → is_Some (heap w !! default globals given) →
  _LazyImport_FlavorB.create globals name given w = (Ok p, w1) →
  let g := default globals given in
  p = next w ∧ next w1 = S (next w)
  ∧ inv p w1
  ∧ heap w1 !! p = Some (Obj LazyImport_B (B_namespace g name))
  ∧ g ≠ p ∧ is_Some (heap w1 !! g) ∧ (g < next w1)%nat
  ∧ log w1 = log w ∧ sys_modules w1 = sys_modules w.
Proof.
  intros Hwf Halive Hcreate g. rewrite create_B_run in Hcreate.
  injection Hcreate as <- <-. fold g.
  pose proof (wf_heap _ Hwf g Halive) as Hlt.
  split_and!; try done.
  - by apply inv_with_new.
  - cbn. by rewrite lookup_insert_eq.
  - lia.
  - cbn. by rewrite lookup_insert_ne by lia.
  - cbn. lia.
Qed.

(** X6.  [__dir__] loads the module as a read of a missing name does, and
    lists the names bound in the module, whatever the proxy holds itself;
    an import that fails makes [__dir__] fail with the same error. *)
Theorem B_dir_lists_the_module w globals given name p w1 :
  wf w → is_Some (heap w !! default globals given) →
  _LazyImport_FlavorB.create globals name given w = (Ok p, w1) →
  (∀ e w', importlib.import_module (VStr name) w1 = (Raise e, w') →
           _LazyImport_FlavorB.__dir__ p w1 = (Raise e, w'))
  ∧ (∀ src place,
       findable w name src place →
       ∃ w2,
         _LazyImport_FlavorB.__dir__ p w1
         = (Ok (dom (module_namespace name src)), w2)
         ∧ sys_modules w2 !! name = Some (S (next w))
         ∧ log w2 = (log w ++ [ ImportCall name; ExecModule name ])%list).
Proof.
  intros Hwf Halive Hcreate.
  destruct (B_new_proxy w globals given name p w1 Hwf Halive Hcreate)
    as (-> & Hn & Hinv & Hp & Hgp & Halive1 & Hlt & Hlog & Hreg).
  destruct (B_namespace_bound (default globals given) name)
    as (Hname & Hg & Hleaf).
  split.
  - intros e w' Himp. unfold _LazyImport_FlavorB.__dir__. cbn.
    by rewrite (B_load_error _ _ name w1 e w' Hp Hname Himp).
  - intros src place Hf.
    assert (findable w1 name src place) as Hf1.
    { rewrite create_B_run in Hcreate. injection Hcreate as <-.
      by apply findable_with_new. }
    destruct (B_load_findable _ _ _ name src place w1
                Hinv Hp Hname Hg Hleaf Hgp Halive1 Hlt Hf1)
      as (w' & w'' & Himp & Hload & L & Hm & Hlog'').
    rewrite Hn in *.
    exists w''. split_and!.
    + unfold _LazyImport_FlavorB.__dir__. cbn. rewrite Hload. cbn.
      unfold bootstrap.getattr_registered. cbn. rewrite Hm. cbn.
      rewrite Hm. cbn. names. by rewrite Hm.
    + apply L.
    + by rewrite Hlog'', Hlog.
Qed.

Lemma B_dir_witness :
  ∃ w2,
    _LazyImport_FlavorB.__dir__ 1%nat (Demo.created FlavorB)
    = (Ok (dom (module_namespace "optional" Demo_optional)), w2)
    ∧ sys_modules w2 !! "optional" = Some 2%nat
    ∧ log w2
      = (log Demo.start
           ++ [ ImportCall "optional"; ExecModule "optional" ])%list.
Proof.
  apply (proj2 (B_dir_lists_the_module Demo.start Demo.globals None
                  "optional" 1%nat (Demo.created FlavorB)
                  Demo_start_wf Demo_globals_alive
                  ltac:(vm_compute; reflexivity))
           Demo_optional None).
  exact Demo_optional_findable.
Defined.




(** ** The third variant and modules that are registered already *)

(** X11.  [_LazyImport_FlavorC] for a name that is imported already does not
    hand out the imported module: it reads the spec off that module, makes
    a new lazy module from it and puts the new one in [sys.modules] in
    place of the old.  The old module object keeps its class and its
    namespace, and no body is executed until the new module is first
    read. *)
Theorem C_replaces_registered_module w name m dm sp :
  wf w →
  PyStr.starts_with_dot name = false →
  sys_modules w !! name = Some m →
  heap w !! m = Some (Obj ModuleType dm) →
  dm !! "__spec__" = Some (VSpec sp) →
  ∃ w1,
    _LazyImport_FlavorC name w = (Ok (next w), w1)
    ∧ next w ≠ m
    ∧ sys_modules w1 = <[name := next w]> (sys_modules w)
    ∧ heap w1 !! next w
      = Some (Obj LazyModule
                (bootstrap.init_module_attrs sp
                   (module_init_dict (spec_name sp) ∅)))
    ∧ heap w1 !! m = Some (Obj ModuleType dm)
    ∧ log w1 = log w.
Proof.
  intros Hwf Habs Hreg Hm Hspec.
  assert (m < next w)%nat as Hlt by (apply (wf_heap _ Hwf); eauto).
  unfold _LazyImport_FlavorC, importlib.find_spec. rewrite Habs.
  cbn. rewrite Hreg. cbn.
  rewrite (getattr_registered_module m "__spec__" w _ Hm) by done.
  rewrite (module_getattribute_bound m _ dm "__spec__" _ w Hm Hspec)
    by discriminate.
  cbn. unfold importlib.LazyLoader_exec_module. cbn.
  rewrite lookup_insert_eq. cbn. rewrite lookup_insert_eq. cbn.
  eexists. split; [reflexivity|]. cbn. split_and!; try done.
  - lia.
  - rewrite insert_insert_eq. by rewrite lookup_insert_eq.
  - rewrite insert_insert_eq. by rewrite lookup_insert_ne by lia.
Qed.

Lemma C_replaces_witness :
  ∃ w1,
    _LazyImport_FlavorC "optional" Demo_imported = (Ok 2%nat, w1)
    ∧ 2%nat ≠ 1%nat
    ∧ sys_modules w1 = <["optional" := 2%nat]> (sys_modules Demo_imported)
    ∧ heap w1 !! 2%nat
      = Some (Obj LazyModule
                (bootstrap.init_module_attrs
                   (bootstrap.spec_of "optional" Demo_optional)
                   (module_init_dict "optional" ∅)))
    ∧ heap w1 !! 1%nat
      = Some (Obj ModuleType (module_namespace "optional" Demo_optional))
    ∧ log w1 = log Demo_imported.
Proof.
  apply (C_replaces_registered_module Demo_imported "optional" 1%nat
           (module_namespace "optional" Demo_optional)
           (bootstrap.spec_of "optional" Demo_optional)).
  - apply wf_check_sound. vm_compute. reflexivity.
  - reflexivity.
  - vm_compute. reflexivity.
  - vm_compute. reflexivity.
  - vm_compute. reflexivity.
Defined.

(** X12.  A registered module whose [__spec__] is [None] or is not set cannot
    be wrapped: [find_spec] raises [ValueError], and the construction
    fails with it and changes nothing. *)
Theorem C_needs_the_spec_of_a_registered_module w name m dm :
  PyStr.starts_with_dot name = false →
  sys_modules w !! name = Some m →
  heap w !! m = Some (Obj ModuleType dm) →
  (dm !! "__spec__" = Some VNone →
   _LazyImport_FlavorC name w
   = (Raise (ValueError (name ++ ".__spec__ is None")), w))
  ∧ (dm !! "__spec__" = None →
     _LazyImport_FlavorC name w
     = (Raise (ValueError (name ++ ".__spec__ is not set")), w)).
Proof.
  intros Habs Hreg Hm. split; intros Hspec;
    unfold _LazyImport_FlavorC, importlib.find_spec; rewrite Habs;
    cbn; rewrite Hreg; cbn;
    rewrite (getattr_registered_module m "__spec__" w _ Hm) by done.
  - by rewrite (module_getattribute_bound m _ dm "__spec__" _ w Hm Hspec)
      by discriminate.
  - by rewrite (module_getattribute_missing m _ dm "__spec__" w Hm Hspec)
      by discriminate.
Qed.

(** The example store with a module registered by hand, as [__main__] of
    a script is: its [__spec__] is [None]. *)
Definition Demo_main : world :=
  (bind (Store.alloc ModuleType (module_init_dict "__main__" ∅))
        (sys.modules_setitem "__main__") Demo.start).2.

Lemma C_needs_spec_witness :
  _LazyImport_FlavorC "__main__" Demo_main
  = (Raise (ValueError ("__main__" ++ ".__spec__ is None")), Demo_main).
Proof.
  apply (proj1 (C_needs_the_spec_of_a_registered_module Demo_main "__main__"
                  1%nat (module_init_dict "__main__" ∅)
                  eq_refl
                  ltac:(vm_compute; reflexivity)
                  ltac:(vm_compute; reflexivity))).
  vm_compute. reflexivity.
Defined.

(** ** Relative names *)



(** ** The package initialiser *)










(** ** The package initialiser under the third variant *)






(** ** The local name of the proxy with a parent namespace *)

Fixpoint has_dot (s : string) : bool :=
  match s with
  | EmptyString => false
  | String c rest => Ascii.eqb c "." || has_dot rest
  end.

Lemma split_dot_nonempty s : ∃ seg segs, PyStr.split_dot s = seg :: segs.
Proof.
  induction s as [|c s (seg & segs & IH)]; cbn; [eauto|].
  destruct (Ascii.eqb c "."); [eauto|]. rewrite IH. eauto.
Qed.

Lemma split_dot_no_dot s : has_dot s = false → PyStr.split_dot s = [ s ].
Proof.
  induction s as [|c s IH]; cbn; [done|].
  intros [Hc Hs]%orb_false_elim. rewrite Hc, (IH Hs). done.
Qed.

Lemma split_dot_has_dot s :
  has_dot s = true → ∃ a b l, PyStr.split_dot s = a :: b :: l.
Proof.
  induction s as [|c s IH]; cbn; [discriminate|].
  destruct (Ascii.eqb c ".") eqn:Hc; cbn.
  - intros _. destruct (split_dot_nonempty s) as (seg & segs & ->). eauto.
  - intros Hs. destruct (IH Hs) as (a & b & l & ->). eauto.
Qed.

Lemma split_dot_segments s :
  Forall (λ seg, has_dot seg = false) (PyStr.split_dot s).
Proof.
  induction s as [|c s IH]; cbn; [by repeat constructor|].
  destruct (Ascii.eqb c ".") eqn:Hc; [by constructor|].
  destruct (PyStr.split_dot s) as [|seg segs].
  - repeat constructor. cbn. by rewrite Hc.
  - inversion IH as [|? ? Hseg Hsegs]; subst.
    constructor; [|done]. cbn. by rewrite Hc, Hseg.
Qed.

Lemma join_dot_cons c seg segs :
  PyStr.join_dot (String c seg :: segs)
  = String c (PyStr.join_dot (seg :: segs)).
Proof. by destruct segs. Qed.

Lemma join_dot_split s : PyStr.join_dot (PyStr.split_dot s) = s.
Proof.
  induction s as [|c s IH]; cbn; [done|].
  destruct (Ascii.eqb_spec c ".") as [->|Hc].
  - destruct (PyStr.split_dot s) as [|seg segs] eqn:Hs.
    + by destruct (split_dot_nonempty s) as (? & ? & ?); simplify_eq.
    + change (PyStr.join_dot ("" :: seg :: segs))
        with ("" ++ "." ++ PyStr.join_dot (seg :: segs)).
      by rewrite IH.
  - destruct (PyStr.split_dot s) as [|seg segs] eqn:Hs.
    + by destruct (split_dot_nonempty s) as (? & ? & ?); simplify_eq.
    + by rewrite join_dot_cons, IH.
Qed.

Lemma join_dot_snoc l x :
  l ≠ [] → PyStr.join_dot (l ++ [ x ]) = PyStr.join_dot l ++ "." ++ x.
Proof.
  induction l as [|a l IH]; [done|]. intros _.
  destruct l as [|b l]; [done|].
  change (PyStr.join_dot ((a :: b :: l) ++ [x]))
    with (a ++ "." ++ PyStr.join_dot ((b :: l) ++ [x])).
  rewrite IH by done.
  change (PyStr.join_dot (a :: b :: l))
    with (a ++ "." ++ PyStr.join_dot (b :: l)).
  by rewrite !string_app_assoc.
Qed.

Lemma Forall_list_last {A} (P : A → Prop) l d :
  Forall P l → P d → P (List.last l d).
Proof.
  induction 1 as [|a l Ha Hl IH]; [done|]. intros Hd.
  destruct l; [done|]. by apply IH.
Qed.

(** [name.split(".")[-1]] holds no dot; it is the whole name when the
    name has no dot, and otherwise the name is its [rpartition] parent, a
    dot, and that last segment. *)
Lemma last_segment_spec name :
  has_dot (PyStr.last_segment name) = false
  ∧ (has_dot name = false → PyStr.last_segment name = name)
  ∧ (has_dot name = true →
     name = PyStr.parent_name name ++ "." ++ PyStr.last_segment name).
Proof.
  unfold PyStr.last_segment, PyStr.parent_name. split_and!.
  - pose proof (split_dot_segments name) as Hall.
    destruct (split_dot_nonempty name) as (seg & segs & Hs).
    rewrite Hs in *.
    by apply Forall_list_last.
  - intros Hn. by rewrite (split_dot_no_dot name Hn).
  - intros Hn. destruct (split_dot_has_dot name Hn) as (a & b & l & Hs).
    rewrite <- (join_dot_split name) at 1. rewrite Hs.
    rewrite (app_removelast_last "" (l := a :: b :: l)) at 1 by done.
    apply join_dot_snoc. by destruct l.
Qed.

(** X8.  The name under which [_load] binds the module in the parent namespace
    is fixed at construction: it is the last segment of the dotted name,
    holds no dot, is the whole name when the name has none, and otherwise
    follows the [rpartition] parent of the name and a dot. *)
Theorem B_local_name_is_the_last_segment w globals given name :
  ∃ leaf ob,
    heap (_LazyImport_FlavorB.create globals name given w).2 !! next w
    = Some ob
    ∧ ns ob !! "_local_name" = Some (VStr leaf)
    ∧ has_dot leaf = false
    ∧ (has_dot name = false → leaf = name)
    ∧ (has_dot name = true → name = PyStr.parent_name name ++ "." ++ leaf).
Proof.
  rewrite create_B_run. cbn.
  destruct (last_segment_spec name) as (H1 & H2 & H3).
  destruct (B_namespace_bound (default globals given) name)
    as (_ & _ & Hleaf).
  eexists _, _. rewrite lookup_insert_eq. split; [reflexivity|]. cbn.
  by split_and!.
Qed.

(** ** What [_load] leaves alone *)

(** X9.  [_load] writes the proxy and the parent namespace and nothing else:
    the registry, the path, the record of imports and every other object
    are as the import it makes has left them. *)
Theorem B_load_writes_proxy_and_parent_only
    w globals given name p w1 m w' :
  wf w → is_Some (heap w !! default globals given) →
  _LazyImport_FlavorB.create globals name given w = (Ok p, w1) →
  importlib.import_module (VStr name) w1 = (Ok m, w') →
  ∃ w'',
    _LazyImport_FlavorB._load p w1 = (Ok m, w'')
    ∧ sys_modules w'' = sys_modules w'
    ∧ disk w'' = disk w'
    ∧ log w'' = log w'
    ∧ ∀ l, l ≠ p → l ≠ default globals given →
           heap w'' !! l = heap w' !! l.
Proof.
  intros Hwf Halive Hcreate Himp.
  destruct (B_new_proxy w globals given name p w1 Hwf Halive Hcreate)
    as (-> & Hn & Hinv & Hp & Hgp & Halive1 & Hlt & Hlog & Hreg).
  destruct (B_namespace_bound (default globals given) name)
    as (Hname & Hg & Hleaf).
  destruct (B_load_run (next w) _ name (default globals given) _ w1 m w'
              Hinv Hp Hname Hg Hleaf Hgp Halive1 Himp)
    as (w'' & Hload & L).
  exists w''. split_and!; try apply L. exact Hload.
Qed.

Lemma B_load_frame_witness :
  ∃ w'',
    _LazyImport_FlavorB._load 1%nat (Demo.created FlavorB) = (Ok 2%nat, w'')
    ∧ sys_modules w''
      = sys_modules
          (importlib.import_module (VStr "optional")
             (Demo.created FlavorB)).2
    ∧ disk w''
      = disk
          (importlib.import_module (VStr "optional")
             (Demo.created FlavorB)).2
    ∧ log w''
      = log
          (importlib.import_module (VStr "optional")
             (Demo.created FlavorB)).2
    ∧ ∀ l, l ≠ 1%nat → l ≠ default Demo.globals None →
           heap w'' !! l
           = heap
               (importlib.import_module (VStr "optional")
                  (Demo.created FlavorB)).2 !! l.
Proof.
  apply (B_load_writes_proxy_and_parent_only
           Demo.start Demo.globals None "optional" 1%nat
           (Demo.created FlavorB) 2%nat).
  - exact Demo_start_wf.
  - exact Demo_globals_alive.
  - vm_compute. reflexivity.
  - vm_compute. reflexivity.
Defined.

(** ** Dotted names and the proxy with a parent namespace *)






(** ** The third variant resolves once *)

(** X13.  The first read through the object [_LazyImport_FlavorC] returns
    executes the module body, in that same object, which is an ordinary
    module from then on: no later read executes anything or changes the
    store.  The import system is not called by any of these reads. *)
Theorem C_executes_the_body_once w name src place p w1 x y :
  findable w name src place →
  _LazyImport_FlavorC name w = (Ok p, w1) →
  log (getattr p x w1).2 = (log w1 ++ [ ExecModule name ])%list
  ∧ heap (getattr p x w1).2 !! p
    = Some (Obj ModuleType (module_namespace name src))
  ∧ sys_modules (getattr p x w1).2 !! name = Some p
  ∧ (getattr p y (getattr p x w1).2).2 = (getattr p x w1).2.
Proof.
  intros Hf Hcreate.
  rewrite (run_create_C name src place w Hf) in Hcreate.
  injection Hcreate as <- <-.
  assert (next (located place w) = next w
          ∧ disk (located place w) = disk w) as [Hn Hd]
    by (by destruct place as [[??]|]).
  set (w1 := lazily_registered name src (located place w)).
  rewrite (run_lazy_first_read (next w) (spec_namespace name src)
             (bootstrap.spec_of name src) src x w1).
  - rewrite module_getattribute_pure. cbn. split_and!.
    + done.
    + by rewrite lookup_insert_eq.
    + by rewrite Hn, lookup_insert_eq.
    + match goal with
      | |- (getattr _ _ ?s).2 = _ => set (w2 := s)
      end.
      assert (heap w2 !! next w
              = Some (Obj ModuleType (module_namespace name src))) as Hm
        by (cbn; by rewrite lookup_insert_eq).
      rewrite (getattr_module (next w) _ y w2 Hm).
      apply module_getattribute_pure.
  - cbn. rewrite Hn. by rewrite lookup_insert_eq.
  - cbn. rewrite Hn. by rewrite lookup_insert_eq.
  - apply spec_namespace_spec.
  - cbn. rewrite Hd. apply (findable_file _ _ _ _ Hf).
  - cbn. by rewrite Hn, lookup_insert_eq.
Qed.

Lemma C_executes_once_witness :
  log (getattr 1%nat "attr" (Demo.created FlavorC)).2
  = (log (Demo.created FlavorC) ++ [ ExecModule "optional" ])%list
  ∧ heap (getattr 1%nat "attr" (Demo.created FlavorC)).2 !! 1%nat
    = Some (Obj ModuleType (module_namespace "optional" Demo_optional))
  ∧ sys_modules (getattr 1%nat "attr" (Demo.created FlavorC)).2
      !! "optional" = Some 1%nat
  ∧ (getattr 1%nat "other"
       (getattr 1%nat "attr" (Demo.created FlavorC)).2).2
    = (getattr 1%nat "attr" (Demo.created FlavorC)).2.
Proof.
  apply (C_executes_the_body_once Demo.start "optional" Demo_optional None
           1%nat (Demo.created FlavorC) "attr" "other").
  - exact Demo_optional_findable.
  - vm_compute. reflexivity.
Defined.
